(** * Kale: the compilation driver ([kale/core.py]) and its command line
      ([kale/command_line.py])

    A shallow embedding of [class Kale] and of [main], and the properties of
    the driver that the specification states: stage order, error handling,
    volume resolution, the output artifact and metadata validation.

    Conventions.
    - Python exceptions are values of [exn]; a computation that may raise
      returns a [result].  Only subclasses of [Exception] are modelled, these
      are the ones [except Exception] catches.
    - Code with effects runs in [M], a state-and-exception monad over
      [world]: the file system (a map from path to content), the records
      sent to the logger ["kubeflow-kale"] and an instrumentation trace that
      records when a stage of [Kale.run] starts and when it returns.
    - Everything the driver imports from elsewhere (the notebook parser, the
      static analysis, the code generator, the KFP client, the [rok-gw]
      command, ...) is a field of [externals]. *)

From Stdlib Require Import ZArith Ascii String.
From stdpp Require Import base option list strings pretty gmap.

Local Open Scope string_scope.
Local Open Scope list_scope.

(** ** Exceptions and results *)

Inductive exn : Type :=
  | ValueError (msg : string)
  | RuntimeError (msg : string)
  | TypeError (msg : string)
  | KeyError (key : string)
  | FileNotFoundError (path : string)
  | ExternalError (cls msg : string).

(** [str(e)], what [logger.error(e)] prints. *)
Definition exn_message (e : exn) : string :=
  match e with
  | ValueError m | RuntimeError m | TypeError m => m
  | KeyError k => "'" +:+ k +:+ "'"
  | FileNotFoundError p => "[Errno 2] No such file or directory: '" +:+ p +:+ "'"
  | ExternalError _ m => m
  end.

Inductive result (A : Type) : Type :=
  | Ok (a : A)
  | Raise (e : exn).
Arguments Ok {A} a.
Arguments Raise {A} e.

#[export] Instance result_ret : MRet result := λ A a, Ok a.
#[export] Instance result_bind : MBind result := λ A B f r,
  match r with Ok a => f a | Raise e => Raise e end.

(** ** Regular expressions of [validate_metadata]

    The two patterns are written as terms of [regex] and matched with
    derivatives.  Both patterns have the shape [^body$] and are used with
    [re.match]: [^] is the start of the string, and Python's [$] (without
    [re.MULTILINE]) holds at the end of the string and also just before a
    newline that is the last character. *)

Inductive regex : Type :=
  | RNone
  | REps
  | RSet (ranges : list (ascii * ascii))
  | RCat (r1 r2 : regex)
  | RAlt (r1 r2 : regex)
  | RStar (r : regex).

Definition ROpt (r : regex) : regex := RAlt r REps.
Definition RPlus (r : regex) : regex := RCat r (RStar r).

Definition in_range (c : ascii) (rg : ascii * ascii) : bool :=
  (nat_of_ascii (fst rg) <=? nat_of_ascii c)%nat
  && (nat_of_ascii c <=? nat_of_ascii (snd rg))%nat.

Definition in_set (c : ascii) (ranges : list (ascii * ascii)) : bool :=
  existsb (in_range c) ranges.

Fixpoint nullable (r : regex) : bool :=
  match r with
  | RNone => false
  | REps => true
  | RSet _ => false
  | RCat r1 r2 => nullable r1 && nullable r2
  | RAlt r1 r2 => nullable r1 || nullable r2
  | RStar _ => true
  end.

Fixpoint deriv (c : ascii) (r : regex) : regex :=
  match r with
  | RNone => RNone
  | REps => RNone
  | RSet ranges => if in_set c ranges then REps else RNone
  | RCat r1 r2 =>
      if nullable r1 then RAlt (RCat (deriv c r1) r2) (deriv c r2)
      else RCat (deriv c r1) r2
  | RAlt r1 r2 => RAlt (deriv c r1) (deriv c r2)
  | RStar r1 => RCat (deriv c r1) (RStar r1)
  end.

Fixpoint fullmatch (r : regex) (s : string) : bool :=
  match s with
  | EmptyString => nullable r
  | String c s' => fullmatch (deriv c r) s'
  end.

Definition newline : ascii := ascii_of_nat 10.

(** [Some s'] when [s] is [s'] followed by one final newline. *)
Fixpoint strip_final_newline (s : string) : option string :=
  match s with
  | EmptyString => None
  | String c EmptyString =>
      if Ascii.eqb c newline then Some EmptyString else None
  | String c s' => String c <$> strip_final_newline s'
  end.

(** [re.match('^' + body + '$', s) is not None] *)
Definition re_match (body : regex) (s : string) : bool :=
  fullmatch body s
  || match strip_final_newline s with
     | Some s' => fullmatch body s'
     | None => false
     end.

Definition lower_digit : list (ascii * ascii) :=
  [("a", "z"); ("0", "9")]%char.
Definition dash_lower_digit : list (ascii * ascii) :=
  [("-", "-"); ("a", "z"); ("0", "9")]%char.
Definition dot_dash_lower_digit : list (ascii * ascii) :=
  [(".", "."); ("-", "-"); ("a", "z"); ("0", "9")]%char.

(** [r'^[a-z0-9]([-a-z0-9]*[a-z0-9])?$'] *)
Definition kale_block_name_regex : regex :=
  RCat (RSet lower_digit)
       (ROpt (RCat (RStar (RSet dash_lower_digit)) (RSet lower_digit))).

(** [r'^[\.\-a-z0-9]+$'] *)
Definition k8s_valid_name_regex : regex :=
  RPlus (RSet dot_dash_lower_digit).

Definition kale_name_msg : string :=
  "must consist of lower case alphanumeric characters or '-', "
  +:+ "and must start and end with an alphanumeric character.".
Definition k8s_name_msg : string :=
  "must consist of lower case alphanumeric characters, '-' or '.'".

(** ** Volumes

    A volume is a Python dict with a fixed set of keys.  ['type'] is read
    with a plain subscript on every volume ([create_cloned_volumes]), so it
    is a field that is always there; the keys the code tests with [in]
    (['name'], ['snapshot'], ['snapshot_name']) and the ones it only passes
    on are optional. *)

Record volume : Type := {
  vol_type : string;
  vol_name : option string;
  vol_mount_point : option string;
  vol_size : option string;
  vol_snapshot : option bool;
  vol_snapshot_name : option string;
  vol_annotation : option (string * string)
}.

(** A member of the snapshot that [rok-gw] registers:
    an element of [output['group_members']]. *)
Record snapshot_member : Type := {
  object_name : string;
  rok_url : string
}.

(** ** The [Kale] object *)

Record Kale : Type := {
  source_path : string;
  output_path : string;
  nbformat_version : Z;
  kfp_dns : option string;
  upload_pipeline : bool;
  run_pipeline : bool;
  experiment_name : string;
  pipeline_name : string;
  pipeline_description : string;
  docker_base_image : string;
  volumes : option (list volume)
}.

(** The body of the [for v in self.volumes] loop. *)
Definition validate_volume (v : volume) : result unit :=
  match vol_name v with
  | None => Raise (ValueError "Provide a valid name for every volume")
  | Some n =>
      if negb (re_match k8s_valid_name_regex n)
      then Raise (ValueError ("PV/PVC resource name " +:+ k8s_name_msg))
      else if default false (vol_snapshot v)
                && match vol_snapshot_name v with
                   | None => true
                   | Some sn => negb (re_match k8s_valid_name_regex sn)
                   end
      then Raise (ValueError
             ("Provide a valid snapshot resource name if you want to snapshot a volume. Snapshot resource name "
              +:+ k8s_name_msg))
      else Ok tt
  end.

Fixpoint validate_volumes (vs : list volume) : result unit :=
  match vs with
  | [] => Ok tt
  | v :: vs' => _ ← validate_volume v; validate_volumes vs'
  end.

Definition validate_metadata (k : Kale) : result unit :=
  if negb (re_match kale_block_name_regex (pipeline_name k))
  then Raise (ValueError ("Pipeline name  " +:+ kale_name_msg))
  else match volumes k with
       | None => Raise (TypeError "'NoneType' object is not iterable")
       | Some vs => validate_volumes vs
       end.

(** ** Paths ([posixpath]) *)

Definition sep : ascii := "/"%char.

(** [p[:p.rfind('/') + 1]] *)
Fixpoint path_head (p : string) : string :=
  match p with
  | EmptyString => EmptyString
  | String c p' =>
      match path_head p' with
      | EmptyString => if Ascii.eqb c sep then String c EmptyString else EmptyString
      | h => String c h
      end
  end.

(** [s.rstrip('/')] *)
Fixpoint rstrip_sep (s : string) : string :=
  match s with
  | EmptyString => EmptyString
  | String c s' =>
      match rstrip_sep s' with
      | EmptyString => if Ascii.eqb c sep then EmptyString else String c EmptyString
      | r => String c r
      end
  end.

(** [s == '/' * len(s)] *)
Fixpoint all_sep (s : string) : bool :=
  match s with
  | EmptyString => true
  | String c s' => Ascii.eqb c sep && all_sep s'
  end.

(** [os.path.dirname] *)
Definition dirname (p : string) : string :=
  let head := path_head p in
  if negb (String.eqb head "") && negb (all_sep head) then rstrip_sep head
  else head.

(** [s.endswith('/')] *)
Fixpoint ends_with_sep (s : string) : bool :=
  match s with
  | EmptyString => false
  | String c EmptyString => Ascii.eqb c sep
  | String _ s' => ends_with_sep s'
  end.

(** [os.path.join(a, b)] *)
Definition path_join (a b : string) : string :=
  match b with
  | String c _ =>
      if Ascii.eqb c sep then b
      else if String.eqb a "" || ends_with_sep a then a +:+ b
      else a +:+ "/" +:+ b
  | EmptyString =>
      if String.eqb a "" || ends_with_sep a then a else a +:+ "/"
  end.

(** [s.split('/')[-1]] *)
Fixpoint last_component (s : string) : string :=
  match s with
  | EmptyString => EmptyString
  | String c s' =>
      if String.eqb (path_head s') "" then
        (if Ascii.eqb c sep then s' else s)
      else last_component s'
  end.

(** ** The world and the monad of effects *)

Inductive level : Type := DEBUG | INFO | ERROR.

(** The stages of [Kale.run]; the analysis stage carries the
    [ignore_symbols] it is called with. *)
Inductive stage : Type :=
  | SValidate
  | SParse
  | SParams
  | SDeps (ignore_symbols : gset string)
  | SCodegen
  | SSave
  | SDeploy.

Inductive event : Type :=
  | Started (s : stage)
  | Finished (s : stage).

(** [fs]: the files, by path.  [log]: the records sent to the logger, oldest
    first (the file [kale.log] the logger appends to is this channel, it is
    not a key of [fs]).  [trace]: instrumentation, oldest first. *)
Record world : Type := {
  fs : gmap string string;
  log : list (level * string);
  trace : list event
}.

Definition M (A : Type) : Type := world → world * result A.

#[export] Instance M_ret : MRet M := λ A a w, (w, Ok a).
#[export] Instance M_bind : MBind M := λ A B f m w,
  match m w with
  | (w', Ok a) => f a w'
  | (w', Raise e) => (w', Raise e)
  end.

Definition raise {A} (e : exn) : M A := λ w, (w, Raise e).

Definition lift {A} (r : result A) : M A := λ w, (w, r).

(** [try: m  except Exception as e: h e] *)
Definition try_except {A} (m : M A) (h : exn → M A) : M A := λ w,
  match m w with
  | (w', Ok a) => (w', Ok a)
  | (w', Raise e) => h e w'
  end.

Definition logger (l : level) (msg : string) : M unit := λ w,
  ({| fs := fs w; log := log w ++ [(l, msg)]; trace := trace w |}, Ok tt).

Definition emit (e : event) : M unit := λ w,
  ({| fs := fs w; log := log w; trace := trace w ++ [e] |}, Ok tt).

Definition read_file (p : string) : M (option string) := λ w,
  (w, Ok (fs w !! p)).

(** [with open(p, "w") as f: f.write(content)] *)
Definition write_file (p content : string) : M unit := λ w,
  ({| fs := <[p := content]> (fs w); log := log w; trace := trace w |}, Ok tt).

(** [os.remove(p)] *)
Definition os_remove (p : string) : M unit := λ w,
  match fs w !! p with
  | Some _ =>
      ({| fs := delete p (fs w); log := log w; trace := trace w |}, Ok tt)
  | None => (w, Raise (FileNotFoundError p))
  end.

(** A stage: its start is recorded, then it runs, and its return is recorded
    when it returns normally. *)
Definition in_stage {A} (s : stage) (m : M A) : M A :=
  _ ← emit (Started s);
  a ← m;
  _ ← emit (Finished s);
  mret a.

(** ** What the driver imports *)

Record cmd_result : Type := {
  exit_code : Z;
  stdout : string;
  stderr : string
}.

(** The keyword arguments of [generate_code.gen_kfp_code]. *)
Record codegen_args (graph : Type) : Type := {
  cg_nb_graph : graph;
  cg_experiment_name : string;
  cg_pipeline_name : string;
  cg_pipeline_description : string;
  cg_pipeline_parameters : list (string * (string * string));
  cg_docker_base_image : string;
  cg_volumes : option (list volume);
  cg_deploy_pipeline : bool
}.
Arguments cg_nb_graph {graph} _.
Arguments cg_experiment_name {graph} _.
Arguments cg_pipeline_name {graph} _.
Arguments cg_pipeline_description {graph} _.
Arguments cg_pipeline_parameters {graph} _.
Arguments cg_docker_base_image {graph} _.
Arguments cg_volumes {graph} _.
Arguments cg_deploy_pipeline {graph} _.

(** Modelled from the spec: the modules [kale.nbparser], [kale.static_analysis],
    [kale.codegen], [kale.nb_utils] and [kale.notebook_gen] are not among the
    sources, nor are the libraries ([kfp], [subprocess], [json], [tempfile],
    [importlib]).  What [core.py] and [command_line.py] call of them is a
    field of this record, with the arguments of the call site.  Sections 4
    and 6 of the specification give the contracts: each component is a
    function of its arguments ([parse(document)], [extract(block)],
    [analyze(graph, parameterNames)], [generate(...)], the last one with no
    side effect beyond producing the text), and fails with an error or
    returns.  [graph] is the type of the pipeline graph, [module] the type of
    the imported generated module.

    - [parse_notebook doc version]: [parser.parse_notebook(source_path,
      version)], where [doc] is the content of the file at [source_path]
      ([None] when there is no such file);
    - [pipeline_parameters_detection block]: the ordered dict of the
      parameters, as the list of its items;
    - [variables_dependencies_detection g ignore_symbols]: the analysis
      annotates the graph object in place; the model returns the annotated
      graph, which [run] uses from then on;
    - [popen cmd]: [subprocess.Popen(cmd, shell=True, ...)] waited for;
    - [json_group_members out]: [json.loads(out)['group_members']];
    - [exec_module name code]: the three [importlib] calls that import the
      copy of the generated script as a module called [name];
    - [kfp_compile m]: [Compiler().compile(m.auto_generated_pipeline, f)],
      as the content of the package it writes to [f]; when it raises, it has
      written nothing;
    - the calls on the KFP client talk to the remote service only. *)
Record externals (graph module : Type) : Type := {
  list_volumes : result (list (string * (string * string)));
  get_namespace : result string;
  getenv_HOSTNAME : option string;
  popen : string → cmd_result;
  json_group_members : string → result (list snapshot_member);
  parse_notebook : option string → Z → result (graph * string);
  pipeline_parameters_detection :
    string → result (list (string * (string * string)));
  variables_dependencies_detection : graph → gset string → result graph;
  gen_kfp_code : codegen_args graph → result string;
  mkdtemp : result string;
  exec_module : string → string → result module;
  kfp_compile : module → result string;
  kfp_Client : result unit;
  client_upload_pipeline : string → string → result unit;
  client_create_experiment : string → result string;
  client_run_pipeline : string → string → string → result string;
  generate_notebooks_from_yml : string → string → result (list (string * string))
}.
Arguments list_volumes {graph module} _.
Arguments get_namespace {graph module} _.
Arguments getenv_HOSTNAME {graph module} _.
Arguments popen {graph module} _ _.
Arguments json_group_members {graph module} _ _.
Arguments parse_notebook {graph module} _ _ _.
Arguments pipeline_parameters_detection {graph module} _ _.
Arguments variables_dependencies_detection {graph module} _ _ _.
Arguments gen_kfp_code {graph module} _ _.
Arguments mkdtemp {graph module} _.
Arguments exec_module {graph module} _ _ _.
Arguments kfp_compile {graph module} _ _.
Arguments kfp_Client {graph module} _.
Arguments client_upload_pipeline {graph module} _ _ _.
Arguments client_create_experiment {graph module} _ _.
Arguments client_run_pipeline {graph module} _ _ _ _.
Arguments generate_notebooks_from_yml {graph module} _ _ _.

(** ** The methods of [Kale] *)

Definition nl : string := String newline EmptyString.

(** [NOTEBOOK_SNAPSHOT_COMMIT_MESSAGE.format(hostname, namespace)] *)
Definition NOTEBOOK_SNAPSHOT_COMMIT_MESSAGE (hostname namespace : string) : string :=
  "This is a snapshot of notebook " +:+ hostname +:+ " in namespace "
  +:+ namespace +:+ "." +:+ nl +:+ nl
  +:+ "This snapshot was created by Kale in order to clone the volumes of the notebook"
  +:+ nl +:+ "and use them to spawn a Kubeflow pipeline.".

(** [str(x)] of a value that is a string or [None] *)
Definition str_or_None (o : option string) : string := default "None" o.

(** The arguments of [Kale(...)]; [notebook_version] and [kfp_dns] have the
    defaults [4] and [None].  [source_notebook_path] is the path in the form
    [pathlib.Path] prints it. *)
Record kale_args : Type := {
  source_notebook_path : string;
  arg_experiment_name : string;
  arg_pipeline_name : string;
  arg_pipeline_descr : string;
  arg_docker_image : string;
  arg_volumes : option (list volume);
  arg_notebook_version : Z;
  arg_upload_pipeline : bool;
  arg_run_pipeline : bool;
  arg_kfp_dns : option string;
  arg_debug : bool
}.

Section Driver.
Context {graph module : Type} (X : externals graph module).

Definition run_cmd (cmd : string) : M string :=
  let p := popen X cmd in
  if negb (exit_code p =? 0)%Z then
    let msg := "Command '" +:+ cmd +:+ "' failed with exit code: "
               +:+ pretty (exit_code p) in
    _ ← logger ERROR (msg +:+ ":" +:+ "b'" +:+ stderr p +:+ "'");
    raise (RuntimeError msg)
  else mret (stdout p).

(** The [for snap in snapshot_volumes] loop of [_get_cloned_volume], for a
    volume whose name is [name]. *)
Fixpoint find_snapshot (name : string) (snapshot_volumes : list snapshot_member)
  : option snapshot_member :=
  match snapshot_volumes with
  | [] => None
  | snap :: rest =>
      if String.eqb (object_name snap) name then Some snap
      else find_snapshot name rest
  end.

(** The deep copy of [v] with its ['type'] and ['annotation'] set. *)
Definition new_pvc (v : volume) (snap : snapshot_member) : volume :=
  {| vol_type := "new_pvc";
     vol_name := vol_name v;
     vol_mount_point := vol_mount_point v;
     vol_size := vol_size v;
     vol_snapshot := vol_snapshot v;
     vol_snapshot_name := vol_snapshot_name v;
     vol_annotation := Some ("rok/origin", rok_url snap) |}.

Definition _get_cloned_volume (v : volume) (snapshot_volumes : list snapshot_member)
  : result volume :=
  match vol_name v with
  | None => Raise (KeyError "name")
  | Some name =>
      match find_snapshot name snapshot_volumes with
      | Some snap => Ok (new_pvc v snap)
      | None =>
          Raise (ValueError ("Volume '" +:+ name +:+ "' not found in notebook snapshot"))
      end
  end.

Definition is_clone (v : volume) : bool := String.eqb (vol_type v) "clone".

(** The [for volume in volumes or []] loop of [create_cloned_volumes]. *)
Fixpoint clone_volumes (vs : list volume) (snapshot_volumes : list snapshot_member)
  : result (list volume) :=
  match vs with
  | [] => Ok []
  | v :: rest =>
      v' ← (if is_clone v then _get_cloned_volume v snapshot_volumes else Ok v);
      rest' ← clone_volumes rest snapshot_volumes;
      mret (v' :: rest')
  end.

(** The command line [create_cloned_volumes] runs. *)
Definition snapshot_command (namespace : string) : string :=
  let hostname := str_or_None (getenv_HOSTNAME X) in
  let commit_title := "Snapshot of notebook " +:+ hostname in
  let commit_message := NOTEBOOK_SNAPSHOT_COMMIT_MESSAGE hostname namespace in
  "rok-gw -o json object-register jupyter"
  +:+ " notebooks '" +:+ hostname +:+ "' --no-interactive"
  +:+ " --param namespace='" +:+ namespace +:+ "'"
  +:+ " --param commit_title='" +:+ commit_title +:+ "'"
  +:+ " --param commit_message='" +:+ commit_message +:+ "'".

Definition create_cloned_volumes (vs : list volume) : M (option (list volume)) :=
  if negb (existsb is_clone vs) then mret None
  else
    namespace ← lift (get_namespace X);
    output ← run_cmd (snapshot_command namespace);
    snapshot_volumes ← lift (json_group_members X output);
    _volumes ← lift (clone_volumes vs snapshot_volumes);
    mret (Some _volumes).

(** The dict [__init__] appends for an item of [list_volumes().items()]. *)
Definition notebook_volume (item : string * (string * string)) : volume :=
  {| vol_type := "clone";
     vol_name := Some (fst (snd item));
     vol_mount_point := Some (fst item);
     vol_size := Some (snd (snd item));
     vol_snapshot := Some false;
     vol_snapshot_name := None;
     vol_annotation := None |}.

Definition output_path_of (source pipeline : string) : string :=
  path_join (dirname source) ("kfp_" +:+ pipeline +:+ ".kfp.py").

(** The list [__init__] passes to [create_cloned_volumes]: a copy of the
    [volumes] argument ([[]] when it is [None] or empty), then one clone
    volume for each volume of the notebook. *)
Definition requested_volumes (a : kale_args)
    (nb_vols : list (string * (string * string))) : list volume :=
  (default [] (arg_volumes a) ++ map notebook_volume nb_vols)%list.

(** [Kale.__init__]; the set-up of the logging handlers has no counterpart
    in [world]. *)
Definition Kale_init (a : kale_args) : M Kale :=
  let source := source_notebook_path a in
  let output := output_path_of source (arg_pipeline_name a) in
  doc ← read_file source;
  if negb (bool_decide (is_Some doc))
  then raise (ValueError ("Path " +:+ source +:+ " does not exist"))
  else
    nb_vols ← lift (list_volumes X);
    cloned ← create_cloned_volumes (requested_volumes a nb_vols);
    mret {| source_path := source;
            output_path := output;
            nbformat_version := arg_notebook_version a;
            kfp_dns := (λ d, "http://" +:+ d +:+ "/pipeline") <$> arg_kfp_dns a;
            upload_pipeline := arg_upload_pipeline a;
            run_pipeline := arg_run_pipeline a;
            experiment_name := arg_experiment_name a;
            pipeline_name := arg_pipeline_name a;
            pipeline_description := arg_pipeline_descr a;
            docker_base_image := arg_docker_image a;
            volumes := cloned |}.

Definition save_pipeline (k : Kale) (pipeline_code : string) : M unit :=
  _ ← write_file (output_path k) pipeline_code;
  logger INFO ("Pipeline code saved at " +:+ output_path k).

Definition pipeline_filename (k : Kale) : string :=
  pipeline_name k +:+ ".pipeline.tar.gz".

Definition copyfile (src dst : string) : M unit :=
  content ← read_file src;
  match content with
  | Some c => write_file dst c
  | None => raise (FileNotFoundError src)
  end.

(** The body of the [try] of [deploy_pipeline_to_kfp]. *)
Definition submit (k : Kale) : M unit :=
  _ ← lift (kfp_Client X);
  _ ← (if upload_pipeline k
       then lift (client_upload_pipeline X (pipeline_filename k) (pipeline_name k))
       else mret tt);
  if run_pipeline k then
    experiment ← lift (client_create_experiment X (experiment_name k));
    let run_name := pipeline_name k +:+ "_run" in
    run ← lift (client_run_pipeline X experiment run_name (pipeline_filename k));
    let run_link := str_or_None (kfp_dns k) +:+ "/#/runs/details/" +:+ run in
    logger INFO ("Deployment Successful. Pipeline run at " +:+ run_link)
  else mret tt.

Definition deploy_pipeline_to_kfp (k : Kale) (pipeline_source : string) : M unit :=
  tmp_dir ← lift (mkdtemp X);
  let copy := tmp_dir +:+ "/" +:+ "pipeline_code.py" in
  _ ← copyfile pipeline_source copy;
  code ← read_file copy;
  foo ← lift (exec_module X (last_component tmp_dir) (default "" code));
  package ← lift (kfp_compile X foo);
  _ ← write_file (pipeline_filename k) package;
  try_except (submit k)
    (λ e, _ ← os_remove (pipeline_name k +:+ ".pipeline.tar.gz"); raise e).

Definition ignore_symbols_of (pipeline_parameters_dict : list (string * (string * string)))
  : gset string :=
  list_to_set (map fst pipeline_parameters_dict).

(** The keyword arguments [run] passes to [gen_kfp_code]. *)
Definition codegen_args_of (k : Kale) (pipeline_graph : graph)
    (pipeline_parameters_dict : list (string * (string * string)))
  : codegen_args graph :=
  {| cg_nb_graph := pipeline_graph;
     cg_experiment_name := experiment_name k;
     cg_pipeline_name := pipeline_name k;
     cg_pipeline_description := pipeline_description k;
     cg_pipeline_parameters := pipeline_parameters_dict;
     cg_docker_base_image := docker_base_image k;
     cg_volumes := volumes k;
     cg_deploy_pipeline := run_pipeline k |}.

(** The body of the [try] of [run]. *)
Definition run_body (k : Kale) : M unit :=
  _ ← in_stage SValidate (lift (validate_metadata k));
  '(pipeline_graph, pipeline_parameters_code_block) ←
    in_stage SParse
      (doc ← read_file (source_path k);
       lift (parse_notebook X doc (nbformat_version k)));
  pipeline_parameters_dict ←
    in_stage SParams
      (lift (pipeline_parameters_detection X pipeline_parameters_code_block));
  let ignore_symbols := ignore_symbols_of pipeline_parameters_dict in
  pipeline_graph ←
    in_stage (SDeps ignore_symbols)
      (lift (variables_dependencies_detection X pipeline_graph ignore_symbols));
  kfp_code ←
    in_stage SCodegen
      (lift (gen_kfp_code X
               (codegen_args_of k pipeline_graph pipeline_parameters_dict)));
  _ ← in_stage SSave (save_pipeline k kfp_code);
  if upload_pipeline k || run_pipeline k
  then in_stage SDeploy (deploy_pipeline_to_kfp k (output_path k))
  else mret tt.

Definition run (k : Kale) : M unit :=
  _ ← logger DEBUG "------------- Kale Start Run -------------";
  try_except (run_body k)
    (λ e,
      _ ← logger DEBUG (exn_message e);
      _ ← logger ERROR (exn_message e);
      logger ERROR
        "To see full traceback run Kale with --debug flag or have a look at kale.log logfile").

End Driver.

(** ** The command line ([main])

    [metadata_arguments] is the dict [main] builds from the notebook metadata
    and the command line; an optional field is a key that may be absent.
    [--nb] is required by the argument parser, and the two [store_true]
    flags and [--debug] always have a value. *)

Record metadata_arguments : Type := {
  ma_nb : string;
  ma_experiment_name : option string;
  ma_pipeline_name : option string;
  ma_docker_image : option string;
  ma_pipeline_description : option string;
  ma_upload_pipeline : bool;
  ma_run_pipeline : bool;
  ma_volumes : option (list volume);
  ma_jupyter_args : option string;
  ma_debug : bool
}.

(** [d[key]] *)
Definition getitem {A} (key : string) (o : option A) : M A :=
  match o with
  | Some a => mret a
  | None => raise (KeyError key)
  end.

Section CommandLine.
Context {graph module : Type} (X : externals graph module).

(** The keyword arguments of [Kale(...)] in the loop over the generated
    notebooks, evaluated in order. *)
Definition generated_kale_args (ma : metadata_arguments) (n params : string)
  : M kale_args :=
  experiment ← getitem "experiment_name" (ma_experiment_name ma);
  pipeline ← getitem "pipeline_name" (ma_pipeline_name ma);
  descr ← getitem "pipeline_description" (ma_pipeline_description ma);
  image ← getitem "docker_image" (ma_docker_image ma);
  vs ← getitem "volumes" (ma_volumes ma);
  mret {| source_notebook_path := n;
          arg_experiment_name := experiment +:+ params;
          arg_pipeline_name := pipeline +:+ params;
          arg_pipeline_descr := descr +:+ " params" +:+ params;
          arg_docker_image := image;
          arg_volumes := Some vs;
          arg_notebook_version := 4;
          arg_upload_pipeline := ma_upload_pipeline ma;
          arg_run_pipeline := ma_run_pipeline ma;
          arg_kfp_dns := None;
          arg_debug := ma_debug ma |}.

(** The body of [for n, params in generated_notebooks]:
    [Kale(...).run()]. *)
Definition compile_generated (ma : metadata_arguments) (n params : string) : M unit :=
  a ← generated_kale_args ma n params;
  k ← Kale_init X a;
  run X k.

Fixpoint sweep (ma : metadata_arguments) (generated_notebooks : list (string * string))
  : M unit :=
  match generated_notebooks with
  | [] => mret tt
  | (n, params) :: rest =>
      _ ← compile_generated ma n params;
      sweep ma rest
  end.

(** The keyword arguments of [Kale(...)] when there is no sweep. *)
Definition single_kale_args (ma : metadata_arguments) : M kale_args :=
  experiment ← getitem "experiment_name" (ma_experiment_name ma);
  pipeline ← getitem "pipeline_name" (ma_pipeline_name ma);
  descr ← getitem "pipeline_description" (ma_pipeline_description ma);
  image ← getitem "docker_image" (ma_docker_image ma);
  vs ← getitem "volumes" (ma_volumes ma);
  mret {| source_notebook_path := ma_nb ma;
          arg_experiment_name := experiment;
          arg_pipeline_name := pipeline;
          arg_pipeline_descr := descr;
          arg_docker_image := image;
          arg_volumes := Some vs;
          arg_notebook_version := 4;
          arg_upload_pipeline := ma_upload_pipeline ma;
          arg_run_pipeline := ma_run_pipeline ma;
          arg_kfp_dns := None;
          arg_debug := ma_debug ma |}.

Definition compile_single (ma : metadata_arguments) : M unit :=
  a ← single_kale_args ma;
  k ← Kale_init X a;
  run X k.

(** [for r in REQUIRED_ARGUMENTS: if r not in metadata_arguments: raise] *)
Definition check_required (ma : metadata_arguments) : M unit :=
  let missing r := raise (ValueError ("Required argument not found: " +:+ r)) in
  if negb (bool_decide (is_Some (ma_experiment_name ma))) then missing "experiment_name"
  else if negb (bool_decide (is_Some (ma_pipeline_name ma))) then missing "pipeline_name"
  else if negb (bool_decide (is_Some (ma_docker_image ma))) then missing "docker_image"
  else mret tt.

(** [main], from the check of the required arguments on. *)
Definition main (ma : metadata_arguments) : M unit :=
  _ ← check_required ma;
  match ma_jupyter_args ma with
  | Some yml =>
      generated_notebooks ← lift (generate_notebooks_from_yml X (ma_nb ma) yml);
      sweep ma generated_notebooks
  | None => compile_single ma
  end.

End CommandLine.

(** ** The arguments of [main]

    [main] merges the metadata of the notebook with the options of the
    command line.  A value of either is a string, a boolean, [None] or, for
    ['volumes'], a list of volumes. *)

Inductive value : Type :=
  | VNone
  | VBool (b : bool)
  | VStr (s : string)
  | VVolumes (vs : list volume).

Definition is_None (v : value) : bool :=
  match v with VNone => true | _ => false end.

(** What [parser.parse_args()] returns: [--nb] is required, an option that
    takes a string is [None] when it is not given, a [store_true] flag is
    [False] when it is not given. *)
Record namespace : Type := {
  args_nb : string;
  args_experiment_name : option string;
  args_pipeline_name : option string;
  args_pipeline_description : option string;
  args_docker_image : option string;
  args_upload_pipeline : bool;
  args_run_pipeline : bool;
  args_kfp_dns : option string;
  args_jupyter_args : option string;
  args_debug : bool
}.

Definition str_value (o : option string) : value :=
  match o with Some s => VStr s | None => VNone end.

(** [vars(args)] *)
Definition vars (args : namespace) : gmap string value :=
  list_to_map
    [("nb", VStr (args_nb args));
     ("experiment_name", str_value (args_experiment_name args));
     ("pipeline_name", str_value (args_pipeline_name args));
     ("pipeline_description", str_value (args_pipeline_description args));
     ("docker_image", str_value (args_docker_image args));
     ("upload_pipeline", VBool (args_upload_pipeline args));
     ("run_pipeline", VBool (args_run_pipeline args));
     ("kfp_dns", str_value (args_kfp_dns args));
     ("jupyter_args", str_value (args_jupyter_args args));
     ("debug", VBool (args_debug args))].

Definition KALE_NOTEBOOK_METADATA_KEY : string := "kubeflow_noteobok".

Definition REQUIRED_ARGUMENTS : list string :=
  ["experiment_name"; "pipeline_name"; "docker_image"].

(** [metadata.get(KALE_NOTEBOOK_METADATA_KEY, dict())] *)
Definition notebook_metadata_of (metadata : gmap string (gmap string value))
  : gmap string value :=
  default ∅ (metadata !! KALE_NOTEBOOK_METADATA_KEY).

(** [{**notebook_metadata,
      **{k: v for k, v in vars(args).items() if v is not None}}] *)
Definition merge_arguments (notebook_metadata : gmap string value)
    (args : namespace) : gmap string value :=
  filter (λ kv, is_None kv.2 = false) (vars args) ∪ notebook_metadata.

(** [for r in REQUIRED_ARGUMENTS: if r not in metadata_arguments: raise] *)
Fixpoint require (required : list string) (metadata_arguments : gmap string value)
  : result unit :=
  match required with
  | [] => Ok tt
  | r :: rest =>
      match metadata_arguments !! r with
      | None => Raise (ValueError ("Required argument not found: " +:+ r))
      | Some _ => require rest metadata_arguments
      end
  end.

(** ** The dependency analyzer *)

Module DependencyAnalyzer.

(** Modelled from the spec: [kale.static_analysis.dep_analysis] is not
    among the sources; what follows is the data model of section 3 and
    the algorithm of section 4.3 of the specification
    ([analyze(graph, parameterNames) -> annotatedGraph]).

    A statement is what the local pass sees of it: the names it
    references, in order of evaluation, the names it assigns at the step's
    top level, and the names a control-flow construct binds (loop
    variables, exception-handler bindings, comprehension targets).  The
    body of a nested function or lambda is an opaque closure: its names
    are in none of the three. *)
Record statement : Type := {
  refs : list string;
  assigns : list string;
  binds : list string
}.

(** Modelled from the spec: the StepNode of section 3. *)
Record StepNode : Type := {
  name : string;
  code : list statement;
  declaredDeps : list string;
  ins : gset string;
  outs : gset string
}.

(** Modelled from the spec: the PipelineGraph of section 3.  [nodes] is in
    first-appearance order; an edge [A -> B] is a declared dependency of
    [B] or a pair of [inferred]. *)
Record PipelineGraph : Type := {
  nodes : list StepNode;
  inferred : list (string * string)
}.

Definition UnresolvedVariableError (step v : string) : exn :=
  ExternalError "UnresolvedVariableError"
    ("step " +:+ step +:+ ": variable " +:+ v +:+ " is not defined").

Definition CycleDetectedError : exn :=
  ExternalError "CycleDetectedError" "the pipeline graph has a cycle".

Fixpoint foldM {A B} (f : B → A → result B) (l : list A) (b : B) : result B :=
  match l with
  | [] => Ok b
  | a :: l' => b' ← f b a; foldM f l' b'
  end.

Section Analysis.
(** The fixed exclusion set of built-in and standard-library names
    (local pass, rule 5). *)
Variable exclusion : gset string.
(** The parameter names. *)
Variable ignore_symbols : gset string.

(** Local pass, rules 1 and 2: the names referenced before the step has
    assigned them, [defined] being the locally-defined-name set. *)
Fixpoint read_before_assign (defined : gset string) (c : list statement)
  : list string :=
  match c with
  | [] => []
  | st :: rest =>
      (filter (λ r, r ∉ defined) (refs st)
       ++ read_before_assign (defined ∪ list_to_set (assigns st)) rest)%list
  end.

(** Rule 4: the names bound by control-flow constructs. *)
Definition bound_names (c : list statement) : gset string :=
  list_to_set (c ≫= binds).

Definition assigned_names (c : list statement) : gset string :=
  list_to_set (c ≫= assigns).

(** Rules 4 and 5: what can be a candidate at all. *)
Definition candidate (c : list statement) (v : string) : bool :=
  bool_decide (v ∉ bound_names c) && bool_decide (v ∉ exclusion).

Definition ins_candidates (c : list statement) : list string :=
  List.filter (candidate c) (remove_dups (read_before_assign ∅ c)).

(** Rule 3, and the reservation of the parameter names of section 4.2:
    a parameter name is never a candidate [outs]. *)
Definition outs_candidate (c : list statement) (v : string) : bool :=
  bool_decide (v ∈ assigned_names c) && candidate c v
  && bool_decide (v ∉ ignore_symbols).

Definition find_node (g : PipelineGraph) (n : string) : option StepNode :=
  List.find (λ s, String.eqb (name s) n) (nodes g).

(** The predecessors of a step: declared, then inferred. *)
Definition preds (g : PipelineGraph) (b : string) : list string :=
  (match find_node g b with Some s => declaredDeps s | None => [] end
   ++ map fst (List.filter (λ e, String.eqb (snd e) b) (inferred g)))%list.

(** Cross-step resolution, rule 1 and the tie-break: the ancestors are
    visited by number of hops, the fewest first, and among the
    producers at the same distance the earliest-declared wins. *)
Fixpoint search (g : PipelineGraph) (v : string) (fuel : nat)
  (frontier : list string) : option string :=
  match fuel with
  | O => None
  | S fuel' =>
      let next := frontier ≫= preds g in
      match List.find (λ s, bool_decide (name s ∈ next)
                            && outs_candidate (code s) v) (nodes g) with
      | Some a => Some (name a)
      | None => search g v fuel' next
      end
  end.

Definition nearest_producer (g : PipelineGraph) (b v : string) : option string :=
  search g v (length (nodes g)) [b].

Definition update_node (f : StepNode → StepNode) (n : string) (g : PipelineGraph)
  : PipelineGraph :=
  {| nodes := map (λ s, if String.eqb (name s) n then f s else s) (nodes g);
     inferred := inferred g |}.

Definition add_in (v : string) (s : StepNode) : StepNode :=
  {| name := name s; code := code s; declaredDeps := declaredDeps s;
     ins := ins s ∪ {[v]}; outs := outs s |}.

Definition add_out (v : string) (s : StepNode) : StepNode :=
  {| name := name s; code := code s; declaredDeps := declaredDeps s;
     ins := ins s; outs := outs s ∪ {[v]} |}.

Definition add_edge (a b : string) (g : PipelineGraph) : PipelineGraph :=
  if bool_decide (a ∈ preds g b) then g
  else {| nodes := nodes g; inferred := (inferred g ++ [(a, b)])%list |}.

(** Rules 2 to 4 of the cross-step resolution, for the candidate [v] of
    step [b]. *)
Definition resolve (b : string) (g : PipelineGraph) (v : string)
  : result PipelineGraph :=
  if bool_decide (v ∈ ignore_symbols) then Ok g
  else match nearest_producer g b v with
       | Some a =>
           Ok (update_node (add_out v) a
                 (update_node (add_in v) b (add_edge a b g)))
       | None => Raise (UnresolvedVariableError b v)
       end.

Definition resolve_step (g : PipelineGraph) (s : StepNode) : result PipelineGraph :=
  foldM (resolve (name s)) (ins_candidates (code s)) g.

(** The topological order, ties broken by first appearance. *)
Fixpoint topological (g : PipelineGraph) (fuel : nat) (done : list StepNode)
  : result (list StepNode) :=
  match fuel with
  | O => Ok done
  | S fuel' =>
      match List.find
              (λ s, bool_decide (name s ∉ map name done)
                    && forallb (λ p, bool_decide (p ∈ map name done))
                               (preds g (name s)))
              (nodes g) with
      | Some s => topological g fuel' (done ++ [s])%list
      | None => Raise CycleDetectedError
      end
  end.

Definition clear (s : StepNode) : StepNode :=
  {| name := name s; code := code s; declaredDeps := declaredDeps s;
     ins := ∅; outs := ∅ |}.

(** One resolution pass: [ins] and [outs] are populated by the analyzer
    only, the steps are processed in topological order. *)
Definition pass (g : PipelineGraph) : result PipelineGraph :=
  let g0 := {| nodes := map clear (nodes g); inferred := inferred g |} in
  order ← topological g0 (length (nodes g0)) [];
  foldM resolve_step order g0.

(** The pass is iterated until it adds no edge. *)
Fixpoint iterate (fuel : nat) (g : PipelineGraph) : result PipelineGraph :=
  g' ← pass g;
  match fuel with
  | O => Ok g'
  | S fuel' =>
      if bool_decide (inferred g' = inferred g) then Ok g'
      else iterate fuel' g'
  end.

(** Modelled from the spec: [dep_analysis.variables_dependencies_detection],
    the contract [analyze(graph, parameterNames) -> annotatedGraph] of
    section 4.3. *)
Definition analyze (g : PipelineGraph) : result PipelineGraph :=
  iterate (length (nodes g) * length (nodes g)) g.

End Analysis.

End DependencyAnalyzer.

(** * Vocabulary of the statements *)

(** ** Metadata validation *)

(** [self.volumes] as the list [validate_metadata] iterates over; there is
    no volume to speak of when the attribute is [None]. *)
Definition volumes_of (k : Kale) : list volume := default [] (volumes k).

(** The three conditions under which the loop body raises. *)
Definition lacks_name (v : volume) : Prop := vol_name v = None.

Definition name_mismatch (v : volume) : Prop :=
  ∃ n, vol_name v = Some n ∧ re_match k8s_valid_name_regex n = false.

Definition snapshot_unnamed (v : volume) : Prop :=
  vol_snapshot v = Some true
  ∧ ¬ ∃ sn, vol_snapshot_name v = Some sn
            ∧ re_match k8s_valid_name_regex sn = true.

Definition invalid_volume (v : volume) : Prop :=
  lacks_name v ∨ name_mismatch v ∨ snapshot_unnamed v.

Definition invalid_metadata (k : Kale) : Prop :=
  re_match kale_block_name_regex (pipeline_name k) = false
  ∨ (∃ v, v ∈ volumes_of k ∧ lacks_name v)
  ∨ (∃ v, v ∈ volumes_of k ∧ name_mismatch v)
  ∨ (∃ v, v ∈ volumes_of k ∧ snapshot_unnamed v).

(** What [run] leaves behind when its [try] body raised [e]. *)
Definition aborted (w : world) (events : list event) (e : exn) : world :=
  {| fs := fs w;
     log := log w
            ++ [(DEBUG, "------------- Kale Start Run -------------");
                (DEBUG, exn_message e);
                (ERROR, exn_message e);
                (ERROR, "To see full traceback run Kale with --debug flag or have a look at kale.log logfile")];
     trace := trace w ++ events |}.

(** ** The stages of a run *)

Definition with_trace (w : world) (events : list event) : world :=
  {| fs := fs w; log := log w; trace := trace w ++ events |}.

(** The events of stages that ran to completion, one after the other. *)
Definition stage_events (stages : list stage) : list event :=
  stages ≫= (λ s, [Started s; Finished s]).

(** The stages of a compilation, from validation to saving. *)
Definition compile_stages (ignore_symbols : gset string) : list stage :=
  [SValidate; SParse; SParams; SDeps ignore_symbols; SCodegen; SSave].

Section Outcomes.
Context {graph module : Type} (X : externals graph module).
Variables (k : Kale) (w : world).

(** [raises_in done s e]: started in [w], the stages [done] return and
    then stage [s] raises [e]; [s] is one of validation, parsing,
    parameter extraction, dependency analysis and code generation. *)
Inductive raises_in : list stage → stage → exn → Prop :=
  | raises_validate e :
      validate_metadata k = Raise e →
      raises_in [] SValidate e
  | raises_parse e :
      validate_metadata k = Ok tt →
      parse_notebook X (fs w !! source_path k) (nbformat_version k) = Raise e →
      raises_in [SValidate] SParse e
  | raises_params g block e :
      validate_metadata k = Ok tt →
      parse_notebook X (fs w !! source_path k) (nbformat_version k) = Ok (g, block) →
      pipeline_parameters_detection X block = Raise e →
      raises_in [SValidate; SParse] SParams e
  | raises_deps g block params e :
      validate_metadata k = Ok tt →
      parse_notebook X (fs w !! source_path k) (nbformat_version k) = Ok (g, block) →
      pipeline_parameters_detection X block = Ok params →
      variables_dependencies_detection X g (ignore_symbols_of params) = Raise e →
      raises_in [SValidate; SParse; SParams] (SDeps (ignore_symbols_of params)) e
  | raises_codegen g block params g' e :
      validate_metadata k = Ok tt →
      parse_notebook X (fs w !! source_path k) (nbformat_version k) = Ok (g, block) →
      pipeline_parameters_detection X block = Ok params →
      variables_dependencies_detection X g (ignore_symbols_of params) = Ok g' →
      gen_kfp_code X (codegen_args_of k g' params) = Raise e →
      raises_in [SValidate; SParse; SParams; SDeps (ignore_symbols_of params)]
                SCodegen e.

(** [compiles g block params g' code]: what each stage hands to the next
    when none of them raises: the parser returns the graph [g] and the
    parameters code block [block], the parameters [params] are extracted
    from [block], the analysis of [g], given the names of [params] to
    ignore, returns [g'], and [code] is generated from [g'] and
    [params]. *)
Definition compiles (g : graph) (block : string)
    (params : list (string * (string * string))) (g' : graph) (code : string)
  : Prop :=
  validate_metadata k = Ok tt
  ∧ parse_notebook X (fs w !! source_path k) (nbformat_version k) = Ok (g, block)
  ∧ pipeline_parameters_detection X block = Ok params
  ∧ variables_dependencies_detection X g (ignore_symbols_of params) = Ok g'
  ∧ gen_kfp_code X (codegen_args_of k g' params) = Ok code.

(** The world once [save_pipeline] has returned. *)
Definition saved (params : list (string * (string * string))) (code : string)
  : world :=
  {| fs := <[output_path k := code]> (fs w);
     log := log w ++ [(INFO, "Pipeline code saved at " +:+ output_path k)];
     trace := trace w ++ stage_events (compile_stages (ignore_symbols_of params)) |}.

End Outcomes.

(** The world once [run] has logged its first line. *)
Definition started (w : world) : world :=
  {| fs := fs w;
     log := log w ++ [(DEBUG, "------------- Kale Start Run -------------")];
     trace := trace w |}.

(** The events a call adds to the trace. *)
Definition new_events (w w' : world) : list event :=
  drop (length (trace w)) (trace w').

(** A [Kale] object whose [output_path] is the one [__init__] computes. *)
Definition constructed (k : Kale) : Prop :=
  output_path k = output_path_of (source_path k) (pipeline_name k).

(** ** A concrete scenario

    The notebook of the specification's example: step [a] is [x = 1], step
    [b] declares [prev:a] and is [y = x + n], and the parameters block is
    [n = 5].  The scenario fixes what the collaborators answer; four of the
    answers vary: the volumes of the notebook, the exit code of the snapshot
    command, what the package compiler returns and what submitting the run
    returns. *)

Module Scenario.
Import DependencyAnalyzer.

Definition step_a : StepNode :=
  {| name := "a";
     code := [ {| refs := []; assigns := ["x"]; binds := [] |} ];
     declaredDeps := []; ins := ∅; outs := ∅ |}.

Definition step_b : StepNode :=
  {| name := "b";
     code := [ {| refs := ["x"; "n"]; assigns := ["y"]; binds := [] |} ];
     declaredDeps := ["a"]; ins := ∅; outs := ∅ |}.

Definition skeleton : PipelineGraph :=
  {| nodes := [step_a; step_b]; inferred := [] |}.

(** A variant in which step [a] also assigns the parameter: [n = 10]. *)
Definition step_a_assigns_n : StepNode :=
  {| name := "a";
     code := [ {| refs := []; assigns := ["x"]; binds := [] |};
               {| refs := []; assigns := ["n"]; binds := [] |} ];
     declaredDeps := []; ins := ∅; outs := ∅ |}.

Definition skeleton_assigns_n : PipelineGraph :=
  {| nodes := [step_a_assigns_n; step_b]; inferred := [] |}.

Definition exclusion : gset string := {[ "print"; "len"; "range" ]}.

Definition externals_of (nb_vols : list (string * (string * string)))
    (cmd_exit : Z) (package run_id : result string)
  : externals PipelineGraph string :=
  {| list_volumes := Ok nb_vols;
     get_namespace := Ok "kubeflow-user";
     getenv_HOSTNAME := Some "nb-0";
     popen := λ cmd,
       {| exit_code := cmd_exit; stdout := "{}"; stderr := "" |};
     json_group_members := λ out,
       Ok [ {| object_name := "workspace-vol"; rok_url := "rok:snap-1" |} ];
     parse_notebook := λ doc version,
       match doc with
       | Some content =>
           if String.eqb content "tagged cells"
           then Ok (skeleton, "n = 5")
           else Raise (ExternalError "TagGrammarError" "malformed tag")
       | None => Raise (FileNotFoundError "notebook")
       end;
     pipeline_parameters_detection := λ block,
       if String.eqb block "n = 5" then Ok [("n", ("int", "5"))] else Ok [];
     variables_dependencies_detection := λ g ignore_symbols,
       analyze exclusion ignore_symbols g;
     gen_kfp_code := λ args, Ok ("# pipeline " +:+ cg_pipeline_name args);
     mkdtemp := Ok "/tmp/tmpk4l3";
     exec_module := λ name code, Ok code;
     kfp_compile := λ m, package;
     kfp_Client := Ok tt;
     client_upload_pipeline := λ file name, Ok tt;
     client_create_experiment := λ name, Ok "exp-1";
     client_run_pipeline := λ experiment run_name file, run_id;
     generate_notebooks_from_yml := λ nb yml,
       Ok [("/nb/gen1.ipynb", "-lr1"); ("/nb/gen2.ipynb", "-lr2")] |}.

(** Everything answers. *)
Definition workspace : list (string * (string * string)) :=
  [("/home/jovyan", ("workspace-vol", "5Gi"))].

Definition X_ok : externals PipelineGraph string :=
  externals_of workspace 0 (Ok "package") (Ok "run-7").

(** The snapshot command fails. *)
Definition X_no_snapshot : externals PipelineGraph string :=
  externals_of workspace 1 (Ok "package") (Ok "run-7").

(** The package compiler raises. *)
Definition X_no_package : externals PipelineGraph string :=
  externals_of workspace 0
    (Raise (ExternalError "CompilerError" "invalid pipeline")) (Ok "run-7").

(** Submitting the run raises. *)
Definition X_no_run : externals PipelineGraph string :=
  externals_of workspace 0 (Ok "package")
    (Raise (ExternalError "ApiException" "(503)")).

(** The notebook has no volume of its own. *)
Definition X_no_volumes : externals PipelineGraph string :=
  externals_of [] 0 (Ok "package") (Ok "run-7").

(** A volume the caller gives that is not a clone. *)
Definition data_pvc : volume :=
  {| vol_type := "pvc";
     vol_name := Some "data";
     vol_mount_point := Some "/data";
     vol_size := Some "1Gi";
     vol_snapshot := Some false;
     vol_snapshot_name := None;
     vol_annotation := None |}.

Definition workspace_clone : volume :=
  {| vol_type := "new_pvc";
     vol_name := Some "workspace-vol";
     vol_mount_point := Some "/home/jovyan";
     vol_size := Some "5Gi";
     vol_snapshot := Some false;
     vol_snapshot_name := None;
     vol_annotation := Some ("rok/origin", "rok:snap-1") |}.

Definition kale (pipeline : string) (deploy : bool) : Kale :=
  {| source_path := "/nb/titanic.ipynb";
     output_path := "/nb/kfp_" +:+ pipeline +:+ ".kfp.py";
     nbformat_version := 4;
     kfp_dns := None;
     upload_pipeline := false;
     run_pipeline := deploy;
     experiment_name := "exp";
     pipeline_name := pipeline;
     pipeline_description := "";
     docker_base_image := "python:3.7";
     volumes := Some [workspace_clone] |}.

Definition world0 : world :=
  {| fs := {[ "/nb/titanic.ipynb" := "tagged cells" ]};
     log := [];
     trace := [] |}.

Definition args_with (vs : option (list volume)) : kale_args :=
  {| source_notebook_path := "/nb/titanic.ipynb";
     arg_experiment_name := "exp";
     arg_pipeline_name := "titanic";
     arg_pipeline_descr := "";
     arg_docker_image := "python:3.7";
     arg_volumes := vs;
     arg_notebook_version := 4;
     arg_upload_pipeline := false;
     arg_run_pipeline := false;
     arg_kfp_dns := None;
     arg_debug := false |}.

Definition args0 : kale_args := args_with None.

(** A sweep over two generated notebooks; the first one is not tagged as
    the parser wants it. *)
Definition sweep_metadata : metadata_arguments :=
  {| ma_nb := "/nb/titanic.ipynb";
     ma_experiment_name := Some "exp";
     ma_pipeline_name := Some "titanic";
     ma_docker_image := Some "python:3.7";
     ma_pipeline_description := Some "survival";
     ma_upload_pipeline := false;
     ma_run_pipeline := false;
     ma_volumes := Some [];
     ma_jupyter_args := Some "params.yml";
     ma_debug := false |}.

Definition sweep_world : world :=
  {| fs := {[ "/nb/titanic.ipynb" := "tagged cells";
              "/nb/gen1.ipynb" := "untagged";
              "/nb/gen2.ipynb" := "tagged cells" ]};
     log := [];
     trace := [] |}.

Definition gen1_args : kale_args :=
  {| source_notebook_path := "/nb/gen1.ipynb";
     arg_experiment_name := "exp-lr1";
     arg_pipeline_name := "titanic-lr1";
     arg_pipeline_descr := "survival params-lr1";
     arg_docker_image := "python:3.7";
     arg_volumes := Some [];
     arg_notebook_version := 4;
     arg_upload_pipeline := false;
     arg_run_pipeline := false;
     arg_kfp_dns := None;
     arg_debug := false |}.

Definition gen1_kale : Kale :=
  {| source_path := "/nb/gen1.ipynb";
     output_path := "/nb/kfp_titanic-lr1.kfp.py";
     nbformat_version := 4;
     kfp_dns := None;
     upload_pipeline := false;
     run_pipeline := false;
     experiment_name := "exp-lr1";
     pipeline_name := "titanic-lr1";
     pipeline_description := "survival params-lr1";
     docker_base_image := "python:3.7";
     volumes := Some [workspace_clone] |}.

End Scenario.

(** ** Deployment *)

(** The events of a deployment that was started. *)
Definition deploy_events (r : result unit) : list event :=
  match r with
  | Ok _ => [Started SDeploy; Finished SDeploy]
  | Raise _ => [Started SDeploy]
  end.

Section DeployOutcomes.
Context {graph module : Type} (X : externals graph module).
Variable k : Kale.

(** [submit_raises e]: a call inside the [try] block of
    [deploy_pipeline_to_kfp] raises [e]: creating the client, uploading
    the pipeline, creating the experiment or submitting the run. *)
Inductive submit_raises : exn → Prop :=
  | client_raises e :
      kfp_Client X = Raise e →
      submit_raises e
  | upload_raises e :
      kfp_Client X = Ok tt →
      upload_pipeline k = true →
      client_upload_pipeline X (pipeline_filename k) (pipeline_name k) = Raise e →
      submit_raises e
  | experiment_raises e :
      kfp_Client X = Ok tt →
      (upload_pipeline k = true →
       client_upload_pipeline X (pipeline_filename k) (pipeline_name k) = Ok tt) →
      run_pipeline k = true →
      client_create_experiment X (experiment_name k) = Raise e →
      submit_raises e
  | run_raises experiment e :
      kfp_Client X = Ok tt →
      (upload_pipeline k = true →
       client_upload_pipeline X (pipeline_filename k) (pipeline_name k) = Ok tt) →
      run_pipeline k = true →
      client_create_experiment X (experiment_name k) = Ok experiment →
      client_run_pipeline X experiment (pipeline_name k +:+ "_run")
        (pipeline_filename k) = Raise e →
      submit_raises e.

(** [packaged w]: started in [w], the deployment reaches its [try] block:
    the temporary directory is made, the generated script is there to be
    copied and imports, and the package compiler returns. *)
Definition packaged (w : world) : Prop :=
  ∃ tmp_dir code foo package,
    mkdtemp X = Ok tmp_dir
    ∧ fs w !! output_path k = Some code
    ∧ exec_module X (last_component tmp_dir) code = Ok foo
    ∧ kfp_compile X foo = Ok package.

(** [compile_raises w e]: started in [w], the deployment gets as far as the
    package compiler, which raises [e]. *)
Definition compile_raises (w : world) (e : exn) : Prop :=
  ∃ tmp_dir code foo,
    mkdtemp X = Ok tmp_dir
    ∧ fs w !! output_path k = Some code
    ∧ exec_module X (last_component tmp_dir) code = Ok foo
    ∧ kfp_compile X foo = Raise e.

End DeployOutcomes.

(** [run] saves a script: [save_pipeline] returns during the call. *)
Definition saves_script {graph module} (X : externals graph module)
    (k : Kale) (w : world) : Prop :=
  Finished SSave ∈ new_events w (run X k w).1.

(** ** Volume resolution *)

Section Resolution.
Context {graph module : Type} (X : externals graph module).

(** [resolution_fails a]: constructing [Kale] from [a] runs the snapshot
    command (some requested volume is a clone), and either the command
    exits with a nonzero code, or a requested clone volume's name is the
    [object_name] of no member of the snapshot. *)
Inductive resolution_fails (a : kale_args) : Prop :=
  | snapshot_command_fails nb_vols namespace :
      list_volumes X = Ok nb_vols →
      get_namespace X = Ok namespace →
      (∃ v, v ∈ requested_volumes a nb_vols ∧ vol_type v = "clone") →
      exit_code (popen X (snapshot_command X namespace)) ≠ 0%Z →
      resolution_fails a
  | clone_not_in_snapshot nb_vols namespace members v name :
      list_volumes X = Ok nb_vols →
      get_namespace X = Ok namespace →
      json_group_members X (stdout (popen X (snapshot_command X namespace)))
        = Ok members →
      v ∈ requested_volumes a nb_vols →
      vol_type v = "clone" →
      vol_name v = Some name →
      (∀ snap, snap ∈ members → object_name snap ≠ name) →
      resolution_fails a.

(** [v'] is what [create_cloned_volumes] returns in the place of [v]: [v]
    itself, or for a clone the new PVC annotated with the origin of the
    first snapshot member that has the volume's name. *)
Definition resolved_from (members : list snapshot_member) (v v' : volume) : Prop :=
  if String.eqb (vol_type v) "clone"
  then ∃ name snap, vol_name v = Some name
                    ∧ find_snapshot name members = Some snap
                    ∧ v' = new_pvc v snap
  else v' = v.

End Resolution.

(** ** Reserved names *)


(** ** What a pattern matches *)

(** [matches r s]: the whole of [s] is a word of the pattern [r]. *)
Inductive matches : regex → string → Prop :=
  | MEps : matches REps ""
  | MSet ranges c : in_set c ranges = true → matches (RSet ranges) (String c "")
  | MCat r1 r2 s1 s2 :
      matches r1 s1 → matches r2 s2 → matches (RCat r1 r2) (s1 +:+ s2)
  | MAltL r1 r2 s : matches r1 s → matches (RAlt r1 r2) s
  | MAltR r1 r2 s : matches r2 s → matches (RAlt r1 r2) s
  | MStar0 r : matches (RStar r) ""
  | MStarApp r s1 s2 :
      matches r s1 → matches (RStar r) s2 → matches (RStar r) (s1 +:+ s2).

(** Every character of [s] is in the class. *)
Fixpoint all_in (ranges : list (ascii * ascii)) (s : string) : bool :=
  match s with
  | EmptyString => true
  | String c s' => in_set c ranges && all_in ranges s'
  end.

Definition first_char (s : string) : option ascii :=
  match s with
  | EmptyString => None
  | String c _ => Some c
  end.

Fixpoint last_char (s : string) : option ascii :=
  match s with
  | EmptyString => None
  | String c EmptyString => Some c
  | String _ s' => last_char s'
  end.

(** A name of lower case letters, digits and dashes that starts and ends
    with a letter or a digit. *)
Definition block_name (s : string) : Prop :=
  all_in dash_lower_digit s = true
  ∧ (∃ c, first_char s = Some c ∧ in_set c lower_digit = true)
  ∧ (∃ c, last_char s = Some c ∧ in_set c lower_digit = true).

(** A non-empty name of lower case letters, digits, dashes and dots. *)
Definition k8s_name (s : string) : Prop :=
  s ≠ "" ∧ all_in dot_dash_lower_digit s = true.

(** [s] is [body], or [body] and one final newline. *)
Definition up_to_final_newline (s body : string) : Prop :=
  s = body ∨ s = body +:+ nl.

(** ** Resolvable volumes *)

(** A volume that [create_cloned_volumes] can handle with these snapshot
    members: it is no clone, or it has a name and a member has this name. *)
Definition resolvable (members : list snapshot_member) (v : volume) : Prop :=
  vol_type v = "clone" →
  ∃ name snap, vol_name v = Some name ∧ find_snapshot name members = Some snap.

(** ** A submission that goes through *)

(** Every call inside the [try] block of [deploy_pipeline_to_kfp] that the
    flags of [k] ask for returns. *)
Definition submit_succeeds {graph module} (X : externals graph module)
    (k : Kale) (run_id : string) : Prop :=
  kfp_Client X = Ok tt
  ∧ (upload_pipeline k = true →
     client_upload_pipeline X (pipeline_filename k) (pipeline_name k) = Ok tt)
  ∧ (run_pipeline k = true →
     ∃ experiment,
       client_create_experiment X (experiment_name k) = Ok experiment
       ∧ client_run_pipeline X experiment (pipeline_name k +:+ "_run")
           (pipeline_filename k) = Ok run_id).

(** The graph of the scenario once analysed. *)
Definition scenario_annotated : DependencyAnalyzer.PipelineGraph :=
  {| DependencyAnalyzer.nodes :=
       [ {| DependencyAnalyzer.name := "a";
            DependencyAnalyzer.code := DependencyAnalyzer.code Scenario.step_a;
            DependencyAnalyzer.declaredDeps := [];
            DependencyAnalyzer.ins := ∅;
            DependencyAnalyzer.outs := {[ "x" ]} |};
         {| DependencyAnalyzer.name := "b";
            DependencyAnalyzer.code := DependencyAnalyzer.code Scenario.step_b;
            DependencyAnalyzer.declaredDeps := ["a"];
            DependencyAnalyzer.ins := {[ "x" ]};
            DependencyAnalyzer.outs := ∅ |} ];
     DependencyAnalyzer.inferred := [] |}.

(** ** The sweep *)


(** ** Paths *)

(** No character of [s] is the separator. *)
Fixpoint no_sep (s : string) : bool :=
  match s with
  | EmptyString => true
  | String c s' => negb (Ascii.eqb c sep) && no_sep s'
  end.

(** What [os.path.join(a, b)] puts before a relative [b]. *)
Definition dir_prefix (a : string) : string :=
  if String.eqb a "" || ends_with_sep a then a else a +:+ "/".

(** The record [ma] is the dict [m] read with the types [main] uses its
    entries at. *)
Definition typed_view (m : gmap string value) (ma : metadata_arguments) : Prop :=
  m !! "nb" = Some (VStr (ma_nb ma))
  ∧ m !! "experiment_name" = VStr <$> ma_experiment_name ma
  ∧ m !! "pipeline_name" = VStr <$> ma_pipeline_name ma
  ∧ m !! "docker_image" = VStr <$> ma_docker_image ma
  ∧ m !! "pipeline_description" = VStr <$> ma_pipeline_description ma
  ∧ m !! "upload_pipeline" = Some (VBool (ma_upload_pipeline ma))
  ∧ m !! "run_pipeline" = Some (VBool (ma_run_pipeline ma))
  ∧ m !! "volumes" = VVolumes <$> ma_volumes ma
  ∧ m !! "jupyter_args" = VStr <$> ma_jupyter_args ma.

(** * Properties *)

(** ** The regular expressions on examples *)

Example re_ok1 : re_match kale_block_name_regex "my-pipe-1" = true.
Proof. reflexivity. Qed.
Example re_ko1 : re_match kale_block_name_regex "my-pipe-" = false.
Proof. reflexivity. Qed.
Example re_ko2 : re_match kale_block_name_regex "" = false.
Proof. reflexivity. Qed.
Example re_ko3 : re_match kale_block_name_regex "My-pipe" = false.
Proof. reflexivity. Qed.
Example re_ok2 : re_match k8s_valid_name_regex "data.vol-1" = true.
Proof. reflexivity. Qed.
Example re_ko4 : re_match k8s_valid_name_regex "Data" = false.
Proof. reflexivity. Qed.
(** Python's [$]: one final newline is accepted. *)
Example re_final_newline :
  re_match kale_block_name_regex ("pipe" +:+ nl) = true
  ∧ re_match kale_block_name_regex ("pipe" +:+ nl +:+ nl) = false.
Proof. split; reflexivity. Qed.

(** ** Paths on examples *)

Example dirname_ex1 : dirname "/home/jovyan/nb.ipynb" = "/home/jovyan".
Proof. reflexivity. Qed.
Example dirname_ex2 : dirname "nb.ipynb" = "".
Proof. reflexivity. Qed.
Example dirname_ex3 : dirname "/nb.ipynb" = "/".
Proof. reflexivity. Qed.
Example output_path_ex1 :
  output_path_of "/home/jovyan/nb.ipynb" "titanic" = "/home/jovyan/kfp_titanic.kfp.py".
Proof. reflexivity. Qed.
Example output_path_ex2 : output_path_of "nb.ipynb" "titanic" = "kfp_titanic.kfp.py".
Proof. reflexivity. Qed.
Example last_component_ex : last_component "/tmp/tmpab12" = "tmpab12".
Proof. reflexivity. Qed.

(** ** Strings *)

Lemma append_nil_l (b : string) : "" +:+ b = b.
Proof. reflexivity. Qed.

Lemma append_cons (x : ascii) (a b : string) :
  String x a +:+ b = String x (a +:+ b).
Proof. reflexivity. Qed.

Lemma append_assoc (a b c : string) : (a +:+ b) +:+ c = a +:+ (b +:+ c).
Proof.
  induction a as [|x a IH]; [done |]. by rewrite !append_cons, IH.
Qed.

Lemma append_empty_r (a : string) : a +:+ "" = a.
Proof. induction a as [|x a IH]; [done |]. by rewrite append_cons, IH. Qed.

Lemma length_append (a b : string) :
  String.length (a +:+ b) = String.length a + String.length b.
Proof.
  induction a as [|x a IH]; [done |]. rewrite append_cons. simpl. by rewrite IH.
Qed.

(** Two strings that are equal end with the same characters. *)
Lemma append_suffix_inj (a b s1 s2 : string) :
  String.length s1 = String.length s2 → a +:+ s1 = b +:+ s2 → s1 = s2.
Proof.
  revert b. induction a as [|x a IH]; intros [|y b] Hlen Heq;
    rewrite ?append_nil_l, ?append_cons in Heq.
  - done.
  - subst s1. simpl in Hlen. rewrite length_append in Hlen. lia.
  - subst s2. simpl in Hlen. rewrite length_append in Hlen. lia.
  - injection Heq as _ Heq. eauto.
Qed.

Lemma path_join_suffix (a b : string) : ∃ pre, path_join a b = pre +:+ b.
Proof.
  unfold path_join. destruct b as [|c b].
  - destruct (String.eqb a "" || ends_with_sep a).
    + exists a. by rewrite append_empty_r.
    + exists (a +:+ "/"). by rewrite append_empty_r.
  - destruct (Ascii.eqb c sep); [by exists "" |].
    destruct (String.eqb a "" || ends_with_sep a); [by exists a |].
    exists (a +:+ "/"). by rewrite append_assoc.
Qed.

(** The path of the generated script ends with [kfp_<pipeline_name>.kfp.py]. *)
Lemma output_path_of_suffix (source pipeline : string) :
  ∃ pre, output_path_of source pipeline = pre +:+ "kfp_" +:+ pipeline +:+ ".kfp.py".
Proof. apply path_join_suffix. Qed.

Lemma output_path_of_ends (source pipeline : string) :
  ∃ pre, output_path_of source pipeline = pre +:+ "p.py".
Proof.
  destruct (output_path_of_suffix source pipeline) as [pre ->].
  exists (pre +:+ "kfp_" +:+ pipeline +:+ ".kf").
  by rewrite !append_assoc.
Qed.

(** The generated script is neither the package nor the copy that the
    deployment makes. *)
Lemma output_path_not_package (source pipeline p : string) :
  output_path_of source pipeline ≠ p +:+ ".pipeline.tar.gz".
Proof.
  destruct (output_path_of_ends source pipeline) as [pre ->]. intros Heq.
  replace (p +:+ ".pipeline.tar.gz") with ((p +:+ ".pipeline.ta") +:+ "r.gz")
    in Heq by (by rewrite append_assoc).
  by apply append_suffix_inj in Heq.
Qed.

Lemma output_path_not_copy (source pipeline tmp_dir : string) :
  output_path_of source pipeline ≠ tmp_dir +:+ "/" +:+ "pipeline_code.py".
Proof.
  destruct (output_path_of_ends source pipeline) as [pre ->]. intros Heq.
  replace (tmp_dir +:+ "/" +:+ "pipeline_code.py")
    with ((tmp_dir +:+ "/pipeline_cod") +:+ "e.py") in Heq
    by (by rewrite !append_assoc).
  by apply append_suffix_inj in Heq.
Qed.

(** ** Metadata validation: lemmas *)

Lemma validate_volume_cases (v : volume) :
  (validate_volume v = Ok tt ∧ ¬ invalid_volume v)
  ∨ (∃ msg, validate_volume v = Raise (ValueError msg) ∧ invalid_volume v).
Proof.
  unfold validate_volume, invalid_volume, lacks_name, name_mismatch, snapshot_unnamed.
  destruct (vol_name v) as [n|] eqn:Hn; [| right; eauto].
  destruct (re_match k8s_valid_name_regex n) eqn:Hre; simpl;
    [| right; eexists; split; [done | right; left; eauto]].
  destruct (vol_snapshot v) as [[|]|] eqn:Hs; simpl.
  - destruct (vol_snapshot_name v) as [sn|] eqn:Hsn.
    + destruct (re_match k8s_valid_name_regex sn) eqn:Hre'; simpl.
      * left. split; [done |].
        intros [? | [(n' & [= <-] & ?) | [_ Hno]]]; [done | congruence |].
        apply Hno. eauto.
      * right. eexists. split; [done |]. right; right. split; [done |].
        intros (sn' & [= <-] & ?). congruence.
    + right. eexists. split; [done |]. right; right. split; [done |].
      intros (sn' & ? & ?). done.
  - left. split; [done |].
    intros [? | [(n' & [= <-] & ?) | [? _]]]; [done | congruence | done].
  - left. split; [done |].
    intros [? | [(n' & [= <-] & ?) | [? _]]]; [done | congruence | done].
Qed.

Lemma validate_volumes_cases (vs : list volume) :
  (validate_volumes vs = Ok tt ∧ ∀ v, v ∈ vs → ¬ invalid_volume v)
  ∨ (∃ msg, validate_volumes vs = Raise (ValueError msg)
            ∧ ∃ v, v ∈ vs ∧ invalid_volume v).
Proof.
  induction vs as [|v vs IH]; simpl.
  - left. split; [done |]. intros v Hv. by apply elem_of_nil in Hv.
  - destruct (validate_volume_cases v) as [[-> Hv] | (msg & -> & Hv)]; simpl.
    + destruct IH as [[-> Hall] | (msg & -> & v' & Hin & Hv')].
      * left. split; [done |]. intros v' [-> | Hin]%elem_of_cons; auto.
      * right. exists msg. split; [done |]. exists v'. split; [| done].
        apply elem_of_cons. by right.
    + right. exists msg. split; [done |]. exists v. split; [| done].
      apply elem_of_cons. by left.
Qed.

Lemma validate_metadata_ValueError (k : Kale) :
  (∃ msg, validate_metadata k = Raise (ValueError msg)) ↔ invalid_metadata k.
Proof.
  unfold validate_metadata, invalid_metadata, volumes_of.
  destruct (re_match kale_block_name_regex (pipeline_name k)) eqn:Hre; simpl.
  2: { split; [by left | eauto]. }
  destruct (volumes k) as [vs|]; simpl.
  - destruct (validate_volumes_cases vs) as [[-> Hall] | (msg & -> & v & Hin & Hv)].
    + split; [intros [? [=]] |].
      intros [? | [(v & Hin & ?) | [(v & Hin & ?) | (v & Hin & ?)]]]; [done | | |];
        exfalso; apply (Hall v Hin); unfold invalid_volume; auto.
    + split; [| eauto]. intros _. right.
      destruct Hv as [? | [? | ?]]; eauto 6.
  - split; [intros [? [=]] |].
    intros [? | [(v & Hin & _) | [(v & Hin & _) | (v & Hin & _)]]]; [done | | |];
      by apply elem_of_nil in Hin.
Qed.

(** ** The stages of [run] *)

(** Membership in a list that is written out, refuted. *)
Ltac elim_elem_of H :=
  repeat (apply elem_of_cons in H as [H | H]; [discriminate H |]);
  apply elem_of_nil in H.

Ltac unfold_M :=
  unfold in_stage, lift, emit, logger, raise, read_file, write_file,
    try_except, mbind, M_bind, mret, M_ret in *.

Section RunLemmas.
Context {graph module : Type} (X : externals graph module).

(** [run_body] by cases: a stage raises, or the script is saved and the
    deployment, if requested, follows. *)
Lemma run_body_cases (k : Kale) (w : world) :
  (∃ done s e, raises_in X k w done s e
     ∧ run_body X k w = (with_trace w (stage_events done ++ [Started s]), Raise e))
  ∨ (∃ g block params g' code, compiles X k w g block params g' code
     ∧ run_body X k w =
         if upload_pipeline k || run_pipeline k
         then in_stage SDeploy (deploy_pipeline_to_kfp X k (output_path k))
                (saved k w params code)
         else (saved k w params code, Ok tt)).
Proof.
  unfold run_body, save_pipeline. unfold_M. simpl.
  destruct (validate_metadata k) as [[]|e] eqn:Hv; simpl.
  2: { left. exists [], SValidate, e. split; [by constructor | done]. }
  destruct (parse_notebook X (fs w !! source_path k) (nbformat_version k))
    as [[g block]|e] eqn:Hp; simpl.
  2: { left. exists [SValidate], SParse, e. split; [by constructor |].
       unfold with_trace. simpl. by rewrite <- !app_assoc. }
  destruct (pipeline_parameters_detection X block) as [params|e] eqn:Hd; simpl.
  2: { left. exists [SValidate; SParse], SParams, e.
       split; [by econstructor |].
       unfold with_trace. simpl. by rewrite <- !app_assoc. }
  destruct (variables_dependencies_detection X g (ignore_symbols_of params))
    as [g'|e] eqn:Ha; simpl.
  2: { left. exists [SValidate; SParse; SParams], (SDeps (ignore_symbols_of params)), e.
       split; [by econstructor |].
       unfold with_trace. simpl. by rewrite <- !app_assoc. }
  destruct (gen_kfp_code X (codegen_args_of k g' params)) as [code|e] eqn:Hg; simpl.
  2: { left.
       exists [SValidate; SParse; SParams; SDeps (ignore_symbols_of params)], SCodegen, e.
       split; [by econstructor |].
       unfold with_trace. simpl. by rewrite <- !app_assoc. }
  right. exists g, block, params, g', code. split; [done |].
  unfold saved, compile_stages, stage_events. simpl.
  destruct (upload_pipeline k || run_pipeline k); simpl;
    by rewrite <- ?app_assoc.
Qed.

Lemma run_unfold (k : Kale) (w : world) :
  run X k w =
    match run_body X k (started w) with
    | (w', Ok a) => (w', Ok a)
    | (w', Raise e) =>
        ({| fs := fs w';
            log := log w' ++ [(DEBUG, exn_message e); (ERROR, exn_message e);
                              (ERROR, "To see full traceback run Kale with --debug flag or have a look at kale.log logfile")];
            trace := trace w' |}, Ok tt)
    end.
Proof.
  unfold run. unfold_M. simpl. fold (started w).
  destruct (run_body X k (started w)) as [w' [[]|e]]; [done |].
  simpl. by rewrite <- !app_assoc.
Qed.

(** [run] catches whatever its body raises. *)
Lemma run_returns (k : Kale) (w : world) : ∃ w', run X k w = (w', Ok tt).
Proof.
  rewrite run_unfold. destruct (run_body X k (started w)) as [w' [[]|e]]; eauto.
Qed.

End RunLemmas.

(** ** Deployment: lemmas *)

Section DeployLemmas.
Context {graph module : Type} (X : externals graph module).

(** The [try] block only talks to the remote service and to the logger. *)
Lemma submit_frame (k : Kale) (w : world) :
  fs (submit X k w).1 = fs w ∧ trace (submit X k w).1 = trace w.
Proof.
  unfold submit. unfold_M.
  destruct (kfp_Client X) as [[]|e]; simpl; [| done].
  destruct (upload_pipeline k); simpl.
  - destruct (client_upload_pipeline X _ _) as [[]|e]; simpl; [| done].
    destruct (run_pipeline k); simpl; [| done].
    destruct (client_create_experiment X _) as [ex|e]; simpl; [| done].
    by destruct (client_run_pipeline X _ _ _) as [r|e].
  - destruct (run_pipeline k); simpl; [| done].
    destruct (client_create_experiment X _) as [ex|e]; simpl; [| done].
    by destruct (client_run_pipeline X _ _ _) as [r|e].
Qed.

Lemma submit_raises_result (k : Kale) (e : exn) (w : world) :
  submit_raises X k e → (submit X k w).2 = Raise e.
Proof.
  unfold submit. unfold_M.
  intros [e' Hc | e' Hc Hu He | e' Hc Hu Hr He | ex e' Hc Hu Hr Hex He];
    rewrite Hc; simpl; [done | | |].
  - by rewrite Hu, He.
  - destruct (upload_pipeline k); [rewrite Hu by done |]; simpl;
      by rewrite Hr, He.
  - destruct (upload_pipeline k); [rewrite Hu by done |]; simpl;
      by rewrite Hr, Hex, He.
Qed.

(** The deployment adds no event of its own. *)
Lemma deploy_trace (k : Kale) (p : string) (w : world) :
  trace (deploy_pipeline_to_kfp X k p w).1 = trace w.
Proof.
  unfold deploy_pipeline_to_kfp, copyfile, os_remove. unfold_M.
  destruct (mkdtemp X) as [tmp|e]; simpl; [| done].
  destruct (fs w !! p) as [c|]; simpl; [| done].
  destruct (exec_module X _ _) as [foo|e]; simpl; [| done].
  destruct (kfp_compile X foo) as [package|e]; simpl; [| done].
  match goal with |- context [submit X k ?w1] =>
    pose proof (submit_frame k w1) as [Hfs Htr];
    destruct (submit X k w1) as [w2 [[]|e]] end; simpl in *; [done |].
  by destruct (fs w2 !! _).
Qed.

(** The deployment writes at most two files: the copy of the script in
    the temporary directory and the package. *)
Lemma deploy_frame (k : Kale) (p q : string) (w : world) :
  q ≠ pipeline_filename k →
  (∀ tmp_dir, mkdtemp X = Ok tmp_dir → q ≠ tmp_dir +:+ "/" +:+ "pipeline_code.py") →
  fs (deploy_pipeline_to_kfp X k p w).1 !! q = fs w !! q.
Proof.
  intros Hpkg Hcopy.
  unfold deploy_pipeline_to_kfp, copyfile, os_remove. unfold_M.
  destruct (mkdtemp X) as [tmp|e]; simpl; [| done].
  specialize (Hcopy tmp eq_refl).
  destruct (fs w !! p) as [c|]; simpl; [| done].
  destruct (exec_module X _ _) as [foo|e]; simpl;
    [| by rewrite lookup_insert_ne].
  destruct (kfp_compile X foo) as [package|e]; simpl;
    [| by rewrite lookup_insert_ne].
  match goal with |- context [submit X k ?w1] =>
    pose proof (submit_frame k w1) as [Hfs Htr];
    destruct (submit X k w1) as [w2 [[]|e]] end; simpl in *.
  - rewrite Hfs. by rewrite !lookup_insert_ne.
  - rewrite Hfs. fold (pipeline_filename k).
    rewrite lookup_insert_eq. simpl.
    rewrite lookup_delete_ne by done. by rewrite !lookup_insert_ne.
Qed.

(** The generated script is not one of the two. *)
Lemma deploy_keeps_script (k : Kale) (p : string) (w : world) :
  constructed k →
  fs (deploy_pipeline_to_kfp X k p w).1 !! output_path k = fs w !! output_path k.
Proof.
  intros Hk. apply deploy_frame; rewrite Hk.
  - apply output_path_not_package.
  - intros tmp _. apply output_path_not_copy.
Qed.

(** A failure inside the [try] block: the package is removed and the
    exception goes on. *)
Lemma deploy_submit_raises (k : Kale) (w : world) (e : exn) :
  packaged X k w → submit_raises X k e →
  (deploy_pipeline_to_kfp X k (output_path k) w).2 = Raise e
  ∧ fs (deploy_pipeline_to_kfp X k (output_path k) w).1 !! pipeline_filename k = None.
Proof.
  intros (tmp & c & foo & package & Htmp & Hc & Hfoo & Hpkg) He.
  unfold deploy_pipeline_to_kfp, copyfile, os_remove. unfold_M.
  rewrite Htmp. simpl. rewrite Hc. simpl.
  rewrite lookup_insert_eq. simpl. rewrite Hfoo. simpl. rewrite Hpkg. simpl.
  match goal with |- context [submit X k ?w1] =>
    pose proof (submit_frame k w1) as [Hfs Htr];
    pose proof (submit_raises_result k e w1 He) as Hres;
    destruct (submit X k w1) as [w2 r] end; simpl in *. subst r.
  rewrite Hfs. fold (pipeline_filename k). rewrite lookup_insert_eq. simpl.
  split; [done |]. apply lookup_delete_eq.
Qed.

(** A failure of the package compiler: the exception leaves the function,
    and the file with the name of the package is as it was. *)
Lemma deploy_compile_raises (k : Kale) (w : world) (e : exn) :
  compile_raises X k w e →
  (deploy_pipeline_to_kfp X k (output_path k) w).2 = Raise e
  ∧ fs (deploy_pipeline_to_kfp X k (output_path k) w).1 !! pipeline_filename k
    = fs w !! pipeline_filename k.
Proof.
  intros (tmp & c & foo & Htmp & Hc & Hfoo & Hpkg).
  unfold deploy_pipeline_to_kfp, copyfile. unfold_M.
  rewrite Htmp. simpl. rewrite Hc. simpl.
  rewrite lookup_insert_eq. simpl. rewrite Hfoo. simpl. rewrite Hpkg. simpl.
  split; [done |]. apply lookup_insert_ne.
  intros Heq. unfold pipeline_filename in Heq.
  replace (tmp +:+ "/" +:+ "pipeline_code.py")
    with ((tmp +:+ "/pipeline_cod") +:+ "e.py") in Heq
    by (by rewrite !append_assoc).
  replace (pipeline_name k +:+ ".pipeline.tar.gz")
    with ((pipeline_name k +:+ ".pipeline.ta") +:+ "r.gz") in Heq
    by (by rewrite append_assoc).
  by apply append_suffix_inj in Heq.
Qed.

End DeployLemmas.

(** ** [run] as a whole *)

Lemma new_events_app (w w' : world) (events : list event) :
  trace w' = trace w ++ events → new_events w w' = events.
Proof. intros H. unfold new_events. rewrite H. by rewrite drop_app_length. Qed.

Section RunOutcome.
Context {graph module : Type} (X : externals graph module).

(** Which stage raises depends on the world through the document only. *)
Lemma raises_in_same_document (k : Kale) (w1 w2 : world) done s e :
  fs w1 !! source_path k = fs w2 !! source_path k →
  raises_in X k w1 done s e → raises_in X k w2 done s e.
Proof.
  intros Hdoc Hr. destruct Hr; rewrite ?Hdoc in *; by econstructor.
Qed.

Lemma in_stage_deploy (k : Kale) (w : world) :
  let d := deploy_pipeline_to_kfp X k (output_path k) (with_trace w [Started SDeploy]) in
  fs (in_stage SDeploy (deploy_pipeline_to_kfp X k (output_path k)) w).1 = fs d.1
  ∧ trace (in_stage SDeploy (deploy_pipeline_to_kfp X k (output_path k)) w).1
    = trace w ++ deploy_events d.2
  ∧ (in_stage SDeploy (deploy_pipeline_to_kfp X k (output_path k)) w).2 = d.2.
Proof.
  intros d. unfold_M. fold (with_trace w [Started SDeploy]). fold d.
  pose proof (deploy_trace X k (output_path k) (with_trace w [Started SDeploy])) as Htr.
  fold d in Htr. destruct d as [w' [[]|e]]; simpl in *; rewrite Htr;
    by rewrite <- ?app_assoc.
Qed.

(** A stage that raises ends the run: nothing is written, the message of
    the exception is logged, and [run] returns. *)
Lemma run_raises_in (k : Kale) (w : world) done s e :
  raises_in X k w done s e →
  run X k w = (aborted w (stage_events done ++ [Started s]) e, Ok tt).
Proof.
  intros Hr. rewrite run_unfold.
  destruct (run_body_cases X k (started w))
    as [(done' & s' & e' & Hr' & ->)
       | (g & block & params & g' & code & Hc & _)].
  - assert (done' = done ∧ s' = s ∧ e' = e) as (-> & -> & ->).
    { destruct Hr; inversion Hr'; simpl in *; subst; try congruence;
        repeat match goal with
               | H1 : ?t = Ok _, H2 : ?t = Ok _ |- _ =>
                   rewrite H1 in H2; inversion H2; subst; clear H2
               | H1 : ?t = Raise _, H2 : ?t = Raise _ |- _ =>
                   rewrite H1 in H2; inversion H2; subst; clear H2
               end; try congruence; done. }
    unfold aborted, with_trace, started. simpl. by rewrite <- !app_assoc.
  - exfalso. destruct Hc as (Hv & Hp & Hd & Ha & Hg). simpl in *.
    destruct Hr; congruence.
Qed.

End RunOutcome.

Section RunSuccess.
Context {graph module : Type} (X : externals graph module).

(** When no stage raises: the trace, and the files. *)
Lemma run_compiles (k : Kale) (w : world) g block params g' code :
  compiles X k w g block params g' code →
  ∃ rest,
    trace (run X k w).1
      = trace w ++ stage_events (compile_stages (ignore_symbols_of params)) ++ rest
    ∧ (rest = [] ∨ rest = [Started SDeploy]
       ∨ rest = [Started SDeploy; Finished SDeploy])
    ∧ (upload_pipeline k || run_pipeline k = false →
       fs (run X k w).1 = <[output_path k := code]> (fs w))
    ∧ (∀ q, q ≠ pipeline_filename k →
         (∀ tmp_dir, mkdtemp X = Ok tmp_dir →
                     q ≠ tmp_dir +:+ "/" +:+ "pipeline_code.py") →
         fs (run X k w).1 !! q = <[output_path k := code]> (fs w) !! q).
Proof.
  intros Hc. rewrite run_unfold.
  destruct (run_body_cases X k (started w))
    as [(done & s & e & Hr & _)
       | (g0 & block0 & params0 & g0' & code0 & Hc0 & ->)].
  { exfalso. destruct Hc as (Hv & Hp & Hd & Ha & Hg). simpl in *.
    destruct Hr; simpl in *; congruence. }
  assert (params0 = params ∧ code0 = code) as [-> ->].
  { destruct Hc as (Hv & Hp & Hd & Ha & Hg), Hc0 as (Hv0 & Hp0 & Hd0 & Ha0 & Hg0).
    simpl in *. rewrite Hp in Hp0. injection Hp0 as <- <-.
    rewrite Hd in Hd0. injection Hd0 as <-.
    rewrite Ha in Ha0. injection Ha0 as <-.
    rewrite Hg in Hg0. by injection Hg0 as <-. }
  destruct (upload_pipeline k || run_pipeline k) eqn:Hflag.
  - pose proof (in_stage_deploy X k (saved k (started w) params code))
      as (Hfs & Htr & Hres). simpl in Hfs, Htr, Hres.
    set (d := deploy_pipeline_to_kfp X k (output_path k)
                (with_trace (saved k (started w) params code) [Started SDeploy]))
      in *.
    destruct (in_stage SDeploy (deploy_pipeline_to_kfp X k (output_path k))
                (saved k (started w) params code)) as [w' r].
    simpl in Hfs, Htr, Hres. subst r.
    exists (deploy_events d.2).
    assert (trace w' = trace w ++
              stage_events (compile_stages (ignore_symbols_of params))
              ++ deploy_events d.2) as Htr'.
    { rewrite Htr. simpl. by rewrite <- app_assoc. }
    assert (∀ q, q ≠ pipeline_filename k →
              (∀ tmp_dir, mkdtemp X = Ok tmp_dir →
                          q ≠ tmp_dir +:+ "/" +:+ "pipeline_code.py") →
              fs w' !! q = <[output_path k := code]> (fs w) !! q) as Hframe.
    { intros q Hq1 Hq2. rewrite Hfs. unfold d.
      by rewrite deploy_frame. }
    destruct d.2 as [[]|e]; simpl in *;
      (split; [done |]); (split; [auto |]); (split; [done | done]).
  - exists []. rewrite app_nil_r. simpl. repeat split; auto.
Qed.

(** A run that saves a script is one in which no stage raised. *)
Lemma saves_script_compiles (k : Kale) (w : world) :
  saves_script X k w → ∃ g block params g' code, compiles X k w g block params g' code.
Proof.
  unfold saves_script. intros Hs.
  destruct (run_body_cases X k (started w))
    as [(done & s & e & Hr & _)
       | (g & block & params & g' & code & Hc & _)]; [| by eauto 6].
  exfalso. assert (raises_in X k w done s e) as Hr'
    by (by apply raises_in_same_document with (started w)).
  rewrite (run_raises_in X k w done s e Hr') in Hs. simpl in Hs.
  rewrite (new_events_app w _ (stage_events done ++ [Started s])) in Hs by done.
  destruct Hr'; simpl in Hs; by elim_elem_of Hs.
Qed.

End RunSuccess.

(** ** Volume resolution: lemmas *)

Lemma is_clone_true (v : volume) : is_clone v = true ↔ vol_type v = "clone".
Proof. apply String.eqb_eq. Qed.

Lemma existsb_is_clone_false (vs : list volume) :
  existsb is_clone vs = false ↔ ∀ v, v ∈ vs → vol_type v ≠ "clone".
Proof.
  induction vs as [|v vs IH]; simpl.
  - split; [| done]. intros _ v Hv. by apply elem_of_nil in Hv.
  - rewrite orb_false_iff, IH. split.
    + intros [Hv Hvs] v' [-> | Hin]%elem_of_cons; [| by apply Hvs].
      intros Hc%is_clone_true. congruence.
    + intros Hall. split.
      * destruct (is_clone v) eqn:Hc; [| done].
        apply is_clone_true in Hc. exfalso. apply (Hall v); [| done].
        apply elem_of_cons. by left.
      * intros v' Hin. apply Hall. apply elem_of_cons. by right.
Qed.

Lemma existsb_is_clone_true (vs : list volume) :
  existsb is_clone vs = true ↔ ∃ v, v ∈ vs ∧ vol_type v = "clone".
Proof.
  rewrite existsb_exists. split; intros (v & Hin & Hc); exists v.
  - split; [by apply list_elem_of_In | by apply is_clone_true].
  - split; [by apply list_elem_of_In | by apply is_clone_true].
Qed.

Lemma find_snapshot_None (name : string) (members : list snapshot_member) :
  find_snapshot name members = None
  ↔ ∀ snap, snap ∈ members → object_name snap ≠ name.
Proof.
  induction members as [|m members IH]; simpl.
  - split; [| done]. intros _ snap Hin. by apply elem_of_nil in Hin.
  - destruct (String.eqb (object_name m) name) eqn:Heq.
    + apply String.eqb_eq in Heq. split; [done |].
      intros Hall. exfalso. apply (Hall m); [| done]. apply elem_of_cons. by left.
    + apply String.eqb_neq in Heq. rewrite IH. split.
      * intros Hall snap [-> | Hin]%elem_of_cons; auto.
      * intros Hall snap Hin. apply Hall. apply elem_of_cons. by right.
Qed.

(** One clone that is not in the snapshot makes the whole loop raise. *)
Lemma clone_volumes_missing (vs : list volume) (members : list snapshot_member)
    (v : volume) (name : string) :
  v ∈ vs → vol_type v = "clone" → vol_name v = Some name →
  find_snapshot name members = None →
  ∃ e, clone_volumes vs members = Raise e.
Proof.
  intros Hin Hc Hn Hfind. induction vs as [|v0 vs IH]; [by apply elem_of_nil in Hin |].
  simpl. apply elem_of_cons in Hin as [<- | Hin].
  - apply is_clone_true in Hc. rewrite Hc. unfold _get_cloned_volume.
    rewrite Hn, Hfind. simpl. eauto.
  - destruct (if is_clone v0 then _ else _) as [v0'|e]; simpl; [| eauto].
    destruct (IH Hin) as [e ->]. simpl. eauto.
Qed.

Lemma clone_volumes_resolved (vs l : list volume) (members : list snapshot_member) :
  clone_volumes vs members = Ok l → Forall2 (resolved_from members) vs l.
Proof.
  revert l. induction vs as [|v vs IH]; simpl; intros l Hl.
  - injection Hl as <-. constructor.
  - destruct (is_clone v) eqn:Hc.
    + unfold _get_cloned_volume in Hl.
      destruct (vol_name v) as [name|] eqn:Hn; [| done].
      destruct (find_snapshot name members) as [snap|] eqn:Hf; [| done].
      simpl in Hl. destruct (clone_volumes vs members) as [l'|e]; [| done].
      simpl in Hl. injection Hl as <-. constructor; [| by apply IH].
      unfold resolved_from. unfold is_clone in Hc. rewrite Hc. eauto.
    + simpl in Hl. destruct (clone_volumes vs members) as [l'|e]; [| done].
      simpl in Hl. injection Hl as <-. constructor; [| by apply IH].
      unfold resolved_from. unfold is_clone in Hc. by rewrite Hc.
Qed.

Section ResolutionLemmas.
Context {graph module : Type} (X : externals graph module).

Lemma run_cmd_frame (cmd : string) (w : world) :
  fs (run_cmd X cmd w).1 = fs w ∧ trace (run_cmd X cmd w).1 = trace w.
Proof. unfold run_cmd. unfold_M. by destruct (negb _). Qed.

Lemma run_cmd_fails (cmd : string) (w : world) :
  exit_code (popen X cmd) ≠ 0%Z → ∃ msg, (run_cmd X cmd w).2 = Raise (RuntimeError msg).
Proof.
  intros Hne. unfold run_cmd. unfold_M.
  destruct (exit_code (popen X cmd) =? 0)%Z eqn:Heq; simpl; [| eauto].
  by apply Z.eqb_eq in Heq.
Qed.

Lemma run_cmd_ok (cmd : string) (w : world) (out : string) :
  (run_cmd X cmd w).2 = Ok out → out = stdout (popen X cmd).
Proof.
  unfold run_cmd. unfold_M. destruct (negb _); simpl; [done |]. by intros [= <-].
Qed.

(** The constructor writes no file and runs no stage. *)
Lemma create_cloned_volumes_frame (vs : list volume) (w : world) :
  fs (create_cloned_volumes X vs w).1 = fs w
  ∧ trace (create_cloned_volumes X vs w).1 = trace w.
Proof.
  unfold create_cloned_volumes.
  destruct (negb (existsb is_clone vs)); [done |]. unfold_M.
  destruct (get_namespace X) as [ns|e]; simpl; [| done].
  pose proof (run_cmd_frame (snapshot_command X ns) w) as [Hfs Htr].
  destruct (run_cmd X (snapshot_command X ns) w) as [w' [out|e]]; simpl in *; [| done].
  destruct (json_group_members X out) as [members|e]; simpl; [| done].
  by destruct (clone_volumes vs members).
Qed.

Lemma Kale_init_frame (a : kale_args) (w : world) :
  fs (Kale_init X a w).1 = fs w ∧ trace (Kale_init X a w).1 = trace w.
Proof.
  unfold Kale_init. unfold_M. simpl.
  destruct (negb (bool_decide (is_Some (fs w !! source_notebook_path a)))); [done |].
  destruct (list_volumes X) as [nb_vols|e]; simpl; [| done].
  pose proof (create_cloned_volumes_frame (requested_volumes a nb_vols) w) as [Hfs Htr].
  by destruct (create_cloned_volumes X (requested_volumes a nb_vols) w) as [w' [c|e]].
Qed.

(** What [__init__] stores: the path of the script is computed from the
    path of the notebook and the name of the pipeline. *)
Lemma Kale_init_constructed (a : kale_args) (w w' : world) (k : Kale) :
  Kale_init X a w = (w', Ok k) →
  constructed k
  ∧ source_path k = source_notebook_path a
  ∧ pipeline_name k = arg_pipeline_name a.
Proof.
  unfold Kale_init. unfold_M. simpl.
  destruct (negb (bool_decide (is_Some (fs w !! source_notebook_path a)))); [done |].
  destruct (list_volumes X) as [nb_vols|e]; simpl; [| done].
  destruct (create_cloned_volumes X (requested_volumes a nb_vols) w)
    as [w1 [c|e]]; [| done].
  by intros [= <- <-].
Qed.

Lemma create_cloned_volumes_fails (a : kale_args) (w : world) nb_vols :
  list_volumes X = Ok nb_vols →
  resolution_fails X a →
  ∃ e, (create_cloned_volumes X (requested_volumes a nb_vols) w).2 = Raise e.
Proof.
  intros Hnb Hfail. unfold create_cloned_volumes.
  destruct Hfail as [nb' ns Hnb' Hns Hclone Hexit
                    | nb' ns members v name Hnb' Hns Hjson Hin Hc Hn Hno];
    rewrite Hnb in Hnb'; injection Hnb' as <-.
  - apply existsb_is_clone_true in Hclone. rewrite Hclone. simpl.
    unfold_M. rewrite Hns. simpl.
    destruct (run_cmd_fails (snapshot_command X ns) w Hexit) as [msg Hmsg].
    destruct (run_cmd X (snapshot_command X ns) w) as [w' r]. simpl in Hmsg.
    subst r. eauto.
  - assert (existsb is_clone (requested_volumes a nb_vols) = true) as ->
      by (apply existsb_is_clone_true; eauto).
    simpl. unfold_M. rewrite Hns. simpl.
    pose proof (run_cmd_ok (snapshot_command X ns) w) as Hout.
    destruct (run_cmd X (snapshot_command X ns) w) as [w' [out|e]]; simpl in *;
      [| eauto].
    rewrite (Hout out eq_refl), Hjson. simpl.
    apply find_snapshot_None in Hno.
    destruct (clone_volumes_missing _ members v name Hin Hc Hn Hno) as [e ->].
    simpl. eauto.
Qed.

End ResolutionLemmas.

(** ** The sweep *)

Section SweepLemmas.
Context {graph module : Type} (X : externals graph module).

(** Evaluating the keyword arguments changes nothing. *)
Lemma generated_kale_args_world (ma : metadata_arguments) (n params : string)
    (w : world) :
  (generated_kale_args ma n params w).1 = w.
Proof.
  unfold generated_kale_args, getitem. unfold_M.
  destruct (ma_experiment_name ma); simpl; [| done].
  destruct (ma_pipeline_name ma); simpl; [| done].
  destruct (ma_pipeline_description ma); simpl; [| done].
  destruct (ma_docker_image ma); simpl; [| done].
  by destruct (ma_volumes ma).
Qed.

End SweepLemmas.

(** ** The analyzer and the reserved names *)

Section AnalyzerLemmas.
Import DependencyAnalyzer.
Variables (exclusion ignore_symbols : gset string).








End AnalyzerLemmas.


(** * The properties of the specification *)

Import Scenario.

(** Membership in a list that evaluates to a written-out list. *)
Ltac solve_elem_of :=
  repeat first [ apply list_elem_of_here | apply list_elem_of_further ].

Lemma scenario_saves_script :
  saves_script X_ok (kale "titanic" false) world0.
Proof.
  unfold saves_script.
  set (l := new_events _ _). vm_compute in l. subst l. solve_elem_of.
Defined.

(** The example of the specification: [a.outs = {x}], [b.ins = {x}], and the
    parameter [n], that [b] reads, is in neither. *)
Example scenario_analysis :
  ∃ a b, DependencyAnalyzer.analyze exclusion {[ "n" ]} skeleton
         = Ok {| DependencyAnalyzer.nodes := [a; b];
                 DependencyAnalyzer.inferred := [] |}
         ∧ DependencyAnalyzer.ins a = ∅ ∧ DependencyAnalyzer.outs a = {[ "x" ]}
         ∧ DependencyAnalyzer.ins b = {[ "x" ]} ∧ DependencyAnalyzer.outs b = ∅.
Proof. do 2 eexists. split; [vm_compute; reflexivity |]. repeat split. Qed.

(** A step that assigns the name of a parameter does not export it. *)
Example scenario_analysis_assigned_parameter :
  ∃ a b, DependencyAnalyzer.analyze exclusion {[ "n" ]} skeleton_assigns_n
         = Ok {| DependencyAnalyzer.nodes := [a; b];
                 DependencyAnalyzer.inferred := [] |}
         ∧ DependencyAnalyzer.outs a = {[ "x" ]}
         ∧ DependencyAnalyzer.ins b = {[ "x" ]}.
Proof. do 2 eexists. split; [vm_compute; reflexivity |]. repeat split. Qed.

(** C1.  A run that saves a script has gone through the stages in this
    order, each stage returning before the next one starts: validation of
    the metadata, parsing (the graph [g] and the parameters code block
    [block]), extraction of the parameters [params] from [block], dependency
    analysis of [g], generation of [code] from the annotated graph [g'], and
    saving.  Only the deployment, when requested, comes after. *)
Theorem run_stage_order {graph module} (X : externals graph module)
    (k : Kale) (w : world) :
  saves_script X k w →
  ∃ g block params g' code,
    compiles X k w g block params g' code
    ∧ ∃ rest,
        new_events w (run X k w).1 =
          [Started SValidate; Finished SValidate;
           Started SParse; Finished SParse;
           Started SParams; Finished SParams;
           Started (SDeps (ignore_symbols_of params));
           Finished (SDeps (ignore_symbols_of params));
           Started SCodegen; Finished SCodegen;
           Started SSave; Finished SSave] ++ rest
        ∧ (rest = [] ∨ rest = [Started SDeploy]
           ∨ rest = [Started SDeploy; Finished SDeploy]).
Proof.
  intros Hs.
  destruct (saves_script_compiles X k w Hs) as (g & block & params & g' & code & Hc).
  exists g, block, params, g', code. split; [done |].
  destruct (run_compiles X k w _ _ _ _ _ Hc) as (rest & Htr & Hrest & _).
  exists rest. split; [| done]. by apply new_events_app.
Qed.

Lemma run_stage_order_witness :
  saves_script X_ok (kale "titanic" false) world0
  ∧ ∃ g block params g' code,
      compiles X_ok (kale "titanic" false) world0 g block params g' code
      ∧ ∃ rest,
          new_events world0 (run X_ok (kale "titanic" false) world0).1 =
            [Started SValidate; Finished SValidate;
             Started SParse; Finished SParse;
             Started SParams; Finished SParams;
             Started (SDeps (ignore_symbols_of params));
             Finished (SDeps (ignore_symbols_of params));
             Started SCodegen; Finished SCodegen;
             Started SSave; Finished SSave] ++ rest
          ∧ (rest = [] ∨ rest = [Started SDeploy]
             ∨ rest = [Started SDeploy; Finished SDeploy]).
Proof.
  split; [exact scenario_saves_script |].
  exact (run_stage_order X_ok (kale "titanic" false) world0 scenario_saves_script).
Defined.




(** C3.  When validation, parsing, parameter extraction, dependency
    analysis or code generation raises [e], the run ends there: [run]
    returns (the exception is caught), the stage that raised is the last
    one started, so that neither saving nor deployment is started, no file
    is written, and the message of [e] is logged as an error. *)
Theorem stage_error_aborts {graph module} (X : externals graph module)
    (k : Kale) (w : world) (done : list stage) (s : stage) (e : exn) :
  raises_in X k w done s e →
  (run X k w).2 = Ok tt
  ∧ new_events w (run X k w).1 = stage_events done ++ [Started s]
  ∧ (Started SSave ∉ new_events w (run X k w).1)
  ∧ (Started SDeploy ∉ new_events w (run X k w).1)
  ∧ fs (run X k w).1 = fs w
  ∧ (ERROR, exn_message e) ∈ drop (length (log w)) (log (run X k w).1).
Proof.
  intros Hr. rewrite (run_raises_in X k w done s e Hr). simpl.
  rewrite (new_events_app w _ (stage_events done ++ [Started s])) by done.
  rewrite drop_app_length.
  split; [done |]. split; [done |].
  split; [| split; [| split; [done | solve_elem_of]]];
    intros Hin; destruct Hr; simpl in Hin; by elim_elem_of Hin.
Qed.

Lemma scenario_parse_raises :
  raises_in X_ok (kale "titanic" false)
    {| fs := {[ "/nb/titanic.ipynb" := "untagged" ]}; log := []; trace := [] |}
    [SValidate] SParse (ExternalError "TagGrammarError" "malformed tag").
Proof. by constructor. Defined.

Lemma stage_error_aborts_witness :
  let w := {| fs := {[ "/nb/titanic.ipynb" := "untagged" ]}; log := []; trace := [] |} in
  let e := ExternalError "TagGrammarError" "malformed tag" in
  raises_in X_ok (kale "titanic" false) w [SValidate] SParse e
  ∧ (run X_ok (kale "titanic" false) w).2 = Ok tt
  ∧ new_events w (run X_ok (kale "titanic" false) w).1
    = stage_events [SValidate] ++ [Started SParse]
  ∧ (Started SSave ∉ new_events w (run X_ok (kale "titanic" false) w).1)
  ∧ (Started SDeploy ∉ new_events w (run X_ok (kale "titanic" false) w).1)
  ∧ fs (run X_ok (kale "titanic" false) w).1 = fs w
  ∧ (ERROR, exn_message e)
      ∈ drop (length (log w)) (log (run X_ok (kale "titanic" false) w).1).
Proof.
  split; [exact scenario_parse_raises |].
  exact (stage_error_aborts X_ok (kale "titanic" false) _ _ _ _ scenario_parse_raises).
Defined.

(** C4.  In the loop over the generated notebooks, once the [Kale] object of
    a notebook is constructed, its [run] returns normally whatever happens
    inside (what a stage raises is caught and logged), and the loop goes on
    with the remaining notebooks, from the world this [run] leaves. *)
Theorem sweep_continues {graph module} (X : externals graph module)
    (ma : metadata_arguments) (n params : string) (rest : list (string * string))
    (w w1 : world) (a : kale_args) (k : Kale) :
  (generated_kale_args ma n params w).2 = Ok a →
  Kale_init X a w = (w1, Ok k) →
  ∃ w2, run X k w1 = (w2, Ok tt)
        ∧ sweep X ma ((n, params) :: rest) w = sweep X ma rest w2.
Proof.
  intros Ha Hk. destruct (run_returns X k w1) as [w2 Hrun].
  exists w2. split; [done |].
  simpl. unfold compile_generated.
  pose proof (generated_kale_args_world ma n params w) as Hw.
  unfold mbind, M_bind at 1 2.
  destruct (generated_kale_args ma n params w) as [w0 r]. simpl in Ha, Hw.
  subst w0 r. unfold mbind, M_bind. by rewrite Hk, Hrun.
Qed.

Lemma sweep_continues_witness :
  (generated_kale_args sweep_metadata "/nb/gen1.ipynb" "-lr1" sweep_world).2
  = Ok gen1_args
  ∧ Kale_init X_ok gen1_args sweep_world = (sweep_world, Ok gen1_kale)
  ∧ ∃ w2, run X_ok gen1_kale sweep_world = (w2, Ok tt)
          ∧ sweep X_ok sweep_metadata
              [("/nb/gen1.ipynb", "-lr1"); ("/nb/gen2.ipynb", "-lr2")] sweep_world
            = sweep X_ok sweep_metadata [("/nb/gen2.ipynb", "-lr2")] w2.
Proof.
  assert ((generated_kale_args sweep_metadata "/nb/gen1.ipynb" "-lr1" sweep_world).2
          = Ok gen1_args) as H1 by reflexivity.
  assert (Kale_init X_ok gen1_args sweep_world = (sweep_world, Ok gen1_kale)) as H2
    by (vm_compute; reflexivity).
  split; [exact H1 |]. split; [exact H2 |].
  exact (sweep_continues X_ok sweep_metadata "/nb/gen1.ipynb" "-lr1"
           [("/nb/gen2.ipynb", "-lr2")] sweep_world sweep_world gen1_args gen1_kale
           H1 H2).
Defined.

(** The sweep of the scenario, from [main]: the first notebook fails to
    parse, the second one is compiled all the same. *)
Example scenario_sweep :
  let w' := (main X_ok sweep_metadata sweep_world).1 in
  (main X_ok sweep_metadata sweep_world).2 = Ok tt
  ∧ (ERROR, "malformed tag") ∈ log w'
  ∧ fs w' !! "/nb/kfp_titanic-lr1.kfp.py" = None
  ∧ fs w' !! "/nb/kfp_titanic-lr2.kfp.py" = Some "# pipeline titanic-lr2".
Proof.
  split; [vm_compute; reflexivity |]. split; [| split; vm_compute; reflexivity].
  set (l := log _). vm_compute in l. subst l. solve_elem_of.
Qed.

(** C5, as the code has it.  The removal of the package guards the [try]
    block of [deploy_pipeline_to_kfp]: when creating the client, uploading
    the pipeline, creating the experiment or submitting the run raises [e],
    the package [<pipeline_name>.pipeline.tar.gz] is removed and [e] is
    raised again.  When the package compiler raises [e], before the [try]
    block, [e] leaves the function as well and nothing is removed.  The
    generated script is left as it was by every deployment, whatever raises
    and wherever. *)
Theorem deploy_failure_cleanup {graph module} (X : externals graph module)
    (k : Kale) :
  constructed k →
  (∀ w, fs (deploy_pipeline_to_kfp X k (output_path k) w).1 !! output_path k
        = fs w !! output_path k)
  ∧ (∀ w e, packaged X k w → submit_raises X k e →
       (deploy_pipeline_to_kfp X k (output_path k) w).2 = Raise e
       ∧ fs (deploy_pipeline_to_kfp X k (output_path k) w).1
           !! (pipeline_name k +:+ ".pipeline.tar.gz") = None)
  ∧ (∀ w e, compile_raises X k w e →
       (deploy_pipeline_to_kfp X k (output_path k) w).2 = Raise e
       ∧ fs (deploy_pipeline_to_kfp X k (output_path k) w).1
           !! (pipeline_name k +:+ ".pipeline.tar.gz")
         = fs w !! (pipeline_name k +:+ ".pipeline.tar.gz")).
Proof.
  intros Hk. split; [| split].
  - intros w. by apply deploy_keeps_script.
  - intros w e Hp He. by apply deploy_submit_raises.
  - intros w e He. by apply deploy_compile_raises.
Qed.

(** The world in which the scenario's script has been saved. *)
Lemma scenario_packaged :
  packaged X_no_run (kale "titanic" true)
    (saved (kale "titanic" true) world0 [("n", ("int", "5"))] "# pipeline titanic").
Proof.
  exists "/tmp/tmpk4l3", "# pipeline titanic", "# pipeline titanic", "package".
  repeat split; vm_compute; reflexivity.
Defined.

Lemma scenario_run_raises :
  submit_raises X_no_run (kale "titanic" true) (ExternalError "ApiException" "(503)").
Proof. by apply run_raises with "exp-1". Defined.

Lemma deploy_failure_cleanup_witness :
  let k := kale "titanic" true in
  let w := saved k world0 [("n", ("int", "5"))] "# pipeline titanic" in
  let e := ExternalError "ApiException" "(503)" in
  constructed k
  ∧ packaged X_no_run k w
  ∧ submit_raises X_no_run k e
  ∧ (deploy_pipeline_to_kfp X_no_run k (output_path k) w).2 = Raise e
  ∧ fs (deploy_pipeline_to_kfp X_no_run k (output_path k) w).1
      !! (pipeline_name k +:+ ".pipeline.tar.gz") = None
  ∧ fs (deploy_pipeline_to_kfp X_no_run k (output_path k) w).1 !! output_path k
    = fs w !! output_path k.
Proof.
  intros k w e.
  assert (constructed k) as H by reflexivity.
  split; [exact H |]. split; [exact scenario_packaged |].
  split; [exact scenario_run_raises |].
  pose proof (deploy_failure_cleanup X_no_run k H) as (Hkeep & Hclean & _).
  destruct (Hclean w e scenario_packaged scenario_run_raises) as [Hres Hgone].
  split; [exact Hres |]. split; [exact Hgone | exact (Hkeep w)].
Defined.

(** The same failure seen from [run]: it is logged, the script is there and
    the package is not. *)
Example scenario_run_not_submitted :
  let w' := (run X_no_run (kale "titanic" true) world0).1 in
  (ERROR, "(503)") ∈ log w'
  ∧ fs w' !! "/nb/kfp_titanic.kfp.py" = Some "# pipeline titanic"
  ∧ fs w' !! "titanic.pipeline.tar.gz" = None.
Proof.
  split; [| split; vm_compute; reflexivity].
  set (l := log _). vm_compute in l. subst l. solve_elem_of.
Qed.

(** C5, as stated, fails for the package compiler.  A first run deploys:
    it leaves the package behind (nothing removes it when the deployment
    succeeds).  In a second run the package compiler raises: this call is
    before the [try] block, the exception leaves
    [deploy_pipeline_to_kfp] at once, and the package is still there. *)
Lemma deploy_compile_failure_keeps_package :
  let k := kale "titanic" true in
  let w1 := (run X_ok k world0).1 in
  let d := deploy_pipeline_to_kfp X_no_package k (output_path k) w1 in
  kfp_compile X_no_package "# pipeline titanic"
    = Raise (ExternalError "CompilerError" "invalid pipeline")
  ∧ d.2 = Raise (ExternalError "CompilerError" "invalid pipeline")
  ∧ fs d.1 !! (pipeline_name k +:+ ".pipeline.tar.gz") = Some "package".
Proof. repeat split; vm_compute; reflexivity. Qed.

(** C6.  When the resolution of the volumes fails (the snapshot command
    exits with a nonzero code, or a requested clone volume is not among the
    members of the snapshot), [Kale(...)] raises: there is no object to call
    [run] on, so [Kale(...).run()] raises the same exception, no stage has
    been started and no file has been written. *)
Theorem volume_resolution_failure_aborts {graph module}
    (X : externals graph module) (a : kale_args) (w : world) :
  resolution_fails X a →
  ∃ e,
    (Kale_init X a w).2 = Raise e
    ∧ (Kale_init X a ≫= run X) w = ((Kale_init X a w).1, Raise e)
    ∧ trace (Kale_init X a w).1 = trace w
    ∧ fs (Kale_init X a w).1 = fs w.
Proof.
  intros Hfail.
  assert (∃ e, (Kale_init X a w).2 = Raise e) as [e He].
  { unfold Kale_init. unfold_M. simpl.
    destruct (negb (bool_decide (is_Some (fs w !! source_notebook_path a))));
      [simpl; eauto |].
    destruct (list_volumes X) as [nb_vols|e] eqn:Hnb; simpl; [| eauto].
    destruct (create_cloned_volumes_fails X a w nb_vols Hnb Hfail) as [e He].
    destruct (create_cloned_volumes X (requested_volumes a nb_vols) w) as [w' r].
    simpl in He. subst r. eauto. }
  exists e. destruct (Kale_init_frame X a w) as [Hfs Htr].
  split; [done |]. split; [| done].
  unfold mbind, M_bind. destruct (Kale_init X a w) as [w' r]. simpl in He.
  by subst r.
Qed.

Lemma scenario_snapshot_fails : resolution_fails X_no_snapshot args0.
Proof.
  apply snapshot_command_fails
    with workspace "kubeflow-user";
    [reflexivity | reflexivity | | by vm_compute].
  exists (notebook_volume ("/home/jovyan", ("workspace-vol", "5Gi"))).
  split; [| reflexivity]. vm_compute. solve_elem_of.
Defined.

Lemma volume_resolution_failure_aborts_witness :
  resolution_fails X_no_snapshot args0
  ∧ ∃ e,
      (Kale_init X_no_snapshot args0 world0).2 = Raise e
      ∧ (Kale_init X_no_snapshot args0 ≫= run X_no_snapshot) world0
        = ((Kale_init X_no_snapshot args0 world0).1, Raise e)
      ∧ trace (Kale_init X_no_snapshot args0 world0).1 = trace world0
      ∧ fs (Kale_init X_no_snapshot args0 world0).1 = fs world0.
Proof.
  split; [exact scenario_snapshot_fails |].
  exact (volume_resolution_failure_aborts X_no_snapshot args0 world0
           scenario_snapshot_fails).
Defined.

(** The exception of the scenario. *)
Example scenario_snapshot_error :
  ∃ msg, (Kale_init X_no_snapshot args0 world0).2 = Raise (RuntimeError msg).
Proof. eexists. vm_compute. reflexivity. Qed.

(** C7.  For a [Kale] object that [__init__] has built, a run that saves a
    script writes the generated text [code], and nothing else, to
    [kfp_<pipeline_name>.kfp.py] in the directory of the source document.
    It is the only file the compilation writes: without deployment the file
    system differs from the initial one at this path only; a deployment
    adds its own two files (the package and the copy of the script in a
    temporary directory) and does not touch the script. *)
Theorem single_output_artifact {graph module} (X : externals graph module)
    (a : kale_args) (w0 w1 : world) (k : Kale) (w : world) :
  Kale_init X a w0 = (w1, Ok k) →
  saves_script X k w →
  ∃ g block params g' code,
    compiles X k w g block params g' code
    ∧ output_path k
      = path_join (dirname (source_notebook_path a))
          ("kfp_" +:+ arg_pipeline_name a +:+ ".kfp.py")
    ∧ fs (run X k w).1 !! output_path k = Some code
    ∧ (upload_pipeline k || run_pipeline k = false →
       fs (run X k w).1 = <[output_path k := code]> (fs w))
    ∧ (∀ q, q ≠ output_path k →
         q ≠ pipeline_name k +:+ ".pipeline.tar.gz" →
         (∀ tmp_dir, mkdtemp X = Ok tmp_dir →
                     q ≠ tmp_dir +:+ "/" +:+ "pipeline_code.py") →
         fs (run X k w).1 !! q = fs w !! q).
Proof.
  intros Hinit Hs.
  destruct (Kale_init_constructed X a w0 w1 k Hinit) as (Hk & Hsrc & Hname).
  destruct (saves_script_compiles X k w Hs) as (g & block & params & g' & code & Hc).
  exists g, block, params, g', code. split; [done |].
  destruct (run_compiles X k w _ _ _ _ _ Hc) as (rest & _ & _ & Hnodeploy & Hframe).
  split; [by rewrite <- Hsrc, <- Hname |]. split; [| split; [done |]].
  - rewrite Hframe.
    + apply lookup_insert_eq.
    + rewrite Hk. apply output_path_not_package.
    + intros tmp _. rewrite Hk. apply output_path_not_copy.
  - intros q Hq1 Hq2 Hq3. rewrite Hframe by done. by rewrite lookup_insert_ne.
Qed.

Lemma scenario_constructed :
  Kale_init X_ok args0 world0 = (world0, Ok (kale "titanic" false)).
Proof. vm_compute. reflexivity. Defined.

Lemma single_output_artifact_witness :
  Kale_init X_ok args0 world0 = (world0, Ok (kale "titanic" false))
  ∧ saves_script X_ok (kale "titanic" false) world0
  ∧ ∃ g block params g' code,
      compiles X_ok (kale "titanic" false) world0 g block params g' code
      ∧ output_path (kale "titanic" false)
        = path_join (dirname (source_notebook_path args0))
            ("kfp_" +:+ arg_pipeline_name args0 +:+ ".kfp.py")
      ∧ fs (run X_ok (kale "titanic" false) world0).1
          !! output_path (kale "titanic" false) = Some code
      ∧ (upload_pipeline (kale "titanic" false) || run_pipeline (kale "titanic" false)
         = false →
         fs (run X_ok (kale "titanic" false) world0).1
         = <[output_path (kale "titanic" false) := code]> (fs world0))
      ∧ (∀ q, q ≠ output_path (kale "titanic" false) →
           q ≠ pipeline_name (kale "titanic" false) +:+ ".pipeline.tar.gz" →
           (∀ tmp_dir, mkdtemp X_ok = Ok tmp_dir →
                       q ≠ tmp_dir +:+ "/" +:+ "pipeline_code.py") →
           fs (run X_ok (kale "titanic" false) world0).1 !! q = fs world0 !! q).
Proof.
  split; [exact scenario_constructed |]. split; [exact scenario_saves_script |].
  exact (single_output_artifact X_ok args0 world0 world0 (kale "titanic" false)
           world0 scenario_constructed scenario_saves_script).
Defined.

(** The text of the scenario, as the file holds it. *)
Example scenario_script :
  fs (run X_ok (kale "titanic" false) world0).1 !! "/nb/kfp_titanic.kfp.py"
  = Some "# pipeline titanic".
Proof. vm_compute. reflexivity. Qed.



(** C9.  When no volume of the list has type ['clone'],
    [create_cloned_volumes] returns [None], not the list; so [self.volumes]
    is [None] whenever the notebook has no volume of its own and the caller
    gave no clone, whatever other volumes the caller gave.  The list comes
    back only when some volume has type ['clone']: then it is the whole
    list, each clone replaced by its snapshotted PVC. *)
Theorem create_cloned_volumes_None {graph module} (X : externals graph module) :
  (∀ vs w, (∀ v, v ∈ vs → vol_type v ≠ "clone") →
           create_cloned_volumes X vs w = (w, Ok None))
  ∧ (∀ a w, list_volumes X = Ok [] →
            (∀ v, v ∈ default [] (arg_volumes a) → vol_type v ≠ "clone") →
            is_Some (fs w !! source_notebook_path a) →
            ∃ k, Kale_init X a w = (w, Ok k) ∧ volumes k = None)
  ∧ (∀ vs w l, (create_cloned_volumes X vs w).2 = Ok (Some l) →
               (∃ v, v ∈ vs ∧ vol_type v = "clone")
               ∧ ∃ members, Forall2 (resolved_from members) vs l).
Proof.
  assert (∀ vs w, (∀ v, v ∈ vs → vol_type v ≠ "clone") →
                  create_cloned_volumes X vs w = (w, Ok None)) as Hnone.
  { intros vs w Hno. apply existsb_is_clone_false in Hno.
    unfold create_cloned_volumes. by rewrite Hno. }
  split; [exact Hnone |]. split.
  - intros a w Hnb Hno Hdoc. unfold Kale_init. unfold_M. simpl.
    rewrite bool_decide_eq_true_2 by done. simpl. rewrite Hnb. simpl.
    rewrite Hnone.
    + eexists. split; [reflexivity | done].
    + unfold requested_volumes. simpl. by rewrite app_nil_r.
  - intros vs w l Hl. unfold create_cloned_volumes in Hl.
    destruct (existsb is_clone vs) eqn:Hc; simpl in Hl; [| done].
    split; [by apply existsb_is_clone_true |].
    unfold_M. destruct (get_namespace X) as [ns|e]; simpl in Hl; [| done].
    destruct (run_cmd X (snapshot_command X ns) w) as [w' [out|e]];
      simpl in Hl; [| done].
    destruct (json_group_members X out) as [members|e]; simpl in Hl; [| done].
    destruct (clone_volumes vs members) as [l'|e] eqn:Hcl; simpl in Hl; [| done].
    injection Hl as <-. exists members. by apply clone_volumes_resolved.
Qed.

Lemma create_cloned_volumes_None_witness :
  list_volumes X_no_volumes = Ok []
  ∧ (∀ v, v ∈ default [] (arg_volumes (args_with (Some [data_pvc]))) →
          vol_type v ≠ "clone")
  ∧ is_Some (fs world0 !! source_notebook_path (args_with (Some [data_pvc])))
  ∧ ∃ k, Kale_init X_no_volumes (args_with (Some [data_pvc])) world0 = (world0, Ok k)
         ∧ volumes k = None.
Proof.
  assert (∀ v, v ∈ default [] (arg_volumes (args_with (Some [data_pvc]))) →
               vol_type v ≠ "clone") as H1.
  { intros v Hv. simpl in Hv. apply list_elem_of_singleton in Hv as ->. done. }
  assert (is_Some (fs world0 !! source_notebook_path (args_with (Some [data_pvc]))))
    as H2 by (by eexists).
  split; [reflexivity |]. split; [exact H1 |]. split; [exact H2 |].
  exact (proj1 (proj2 (create_cloned_volumes_None X_no_volumes))
           (args_with (Some [data_pvc])) world0 eq_refl H1 H2).
Defined.

(** With [self.volumes] set to [None], the loop of [validate_metadata] has
    nothing to iterate over: [run] stops in the validation stage. *)
Example scenario_volumes_None :
  ∃ k, Kale_init X_no_volumes (args_with (Some [data_pvc])) world0 = (world0, Ok k)
       ∧ validate_metadata k = Raise (TypeError "'NoneType' object is not iterable")
       ∧ new_events world0 (run X_no_volumes k world0).1 = [Started SValidate].
Proof. eexists. split; [vm_compute; reflexivity |]. split; reflexivity. Qed.

(** C10.  [validate_metadata] raises [ValueError] exactly when the pipeline
    name does not match [^[a-z0-9]([-a-z0-9]*[a-z0-9])?$], or a volume has
    no name, or a volume's name does not match [^[\.\-a-z0-9]+$], or a
    volume to snapshot has no snapshot name that matches this pattern.
    [run] validates first: with such metadata it stops in the validation
    stage, parsing is never started and no file is written. *)
Theorem validate_metadata_spec (k : Kale) :
  ((∃ msg, validate_metadata k = Raise (ValueError msg)) ↔ invalid_metadata k)
  ∧ ∀ {graph module} (X : externals graph module) (w : world),
      invalid_metadata k →
      new_events w (run X k w).1 = [Started SValidate]
      ∧ fs (run X k w).1 = fs w.
Proof.
  split; [apply validate_metadata_ValueError |].
  intros graph module X w [msg Hmsg]%validate_metadata_ValueError.
  rewrite (run_raises_in X k w [] SValidate _ (raises_validate X k w _ Hmsg)).
  simpl. split; [| done]. by apply new_events_app.
Qed.

Lemma validate_metadata_spec_witness :
  invalid_metadata (kale "Titanic" false)
  ∧ new_events world0 (run X_ok (kale "Titanic" false) world0).1 = [Started SValidate]
  ∧ fs (run X_ok (kale "Titanic" false) world0).1 = fs world0.
Proof.
  assert (invalid_metadata (kale "Titanic" false)) as H by (by left).
  split; [exact H |].
  exact (proj2 (validate_metadata_spec (kale "Titanic" false)) _ _ X_ok world0 H).
Defined.

(** * More properties of the code *)

(** ** The matcher *)

Lemma append_eq_empty (a b : string) : a +:+ b = "" → a = "" ∧ b = "".
Proof. destruct a; [by rewrite append_nil_l | by rewrite append_cons]. Qed.

Lemma nullable_matches (r : regex) : nullable r = true ↔ matches r "".
Proof.
  split.
  - induction r as [| | rs | r1 IH1 r2 IH2 | r1 IH1 r2 IH2 | r IH]; simpl; intros H.
    + done.
    + constructor.
    + done.
    + apply andb_true_iff in H as [H1 H2].
      change "" with ("" +:+ ""). constructor; auto.
    + apply orb_true_iff in H as [H | H]; [apply MAltL | apply MAltR]; auto.
    + constructor.
  - intros H. remember "" as s eqn:Hs.
    induction H as [| rs c Hc | r1 r2 s1 s2 H1 IH1 H2 IH2 | r1 r2 s H IH
                   | r1 r2 s H IH | r | r s1 s2 H1 IH1 H2 IH2]; simpl.
    + done.
    + done.
    + apply append_eq_empty in Hs as [-> ->].
      by rewrite IH1, IH2.
    + by rewrite IH.
    + rewrite IH by done. apply orb_true_r.
    + done.
    + done.
Qed.

Lemma deriv_matches_1 (c : ascii) (r : regex) (s : string) :
  matches (deriv c r) s → matches r (String c s).
Proof.
  revert s.
  induction r as [| | rs | r1 IH1 r2 IH2 | r1 IH1 r2 IH2 | r IH]; simpl; intros s H.
  - inversion H.
  - inversion H.
  - destruct (in_set c rs) eqn:Hc; inversion H; subst. by constructor.
  - destruct (nullable r1) eqn:Hn.
    + inversion H as [| | | ? ? ? H' | ? ? ? H' | |]; subst.
      * inversion H' as [| | ? ? s1 s2 Ha Hb | | | |]; subst.
        rewrite <- append_cons. constructor; auto.
      * rewrite <- (append_nil_l (String c s)). constructor; [| auto].
        by apply nullable_matches.
    + inversion H as [| | ? ? s1 s2 Ha Hb | | | |]; subst.
      rewrite <- append_cons. constructor; auto.
  - inversion H; subst; [apply MAltL | apply MAltR]; auto.
  - inversion H as [| | ? ? s1 s2 Ha Hb | | | |]; subst.
    rewrite <- append_cons. constructor; auto.
Qed.

Lemma deriv_matches_2 (r : regex) (t : string) :
  matches r t → ∀ c s, t = String c s → matches (deriv c r) s.
Proof.
  induction 1 as [| rs c0 Hc | r1 r2 s1 s2 H1 IH1 H2 IH2 | r1 r2 s0 H IH
                 | r1 r2 s0 H IH | r | r s1 s2 H1 IH1 H2 IH2];
    intros c s Heq; simpl.
  - done.
  - injection Heq as -> <-. rewrite Hc. constructor.
  - destruct s1 as [|c1 s1].
    + rewrite append_nil_l in Heq. subst s2.
      apply nullable_matches in H1. rewrite H1. apply MAltR. by apply IH2.
    + rewrite append_cons in Heq. injection Heq as -> <-.
      assert (matches (RCat (deriv c r1) r2) (s1 +:+ s2)) as Hcat
        by (constructor; auto).
      destruct (nullable r1); [by apply MAltL | done].
  - apply MAltL. by apply IH.
  - apply MAltR. by apply IH.
  - done.
  - destruct s1 as [|c1 s1].
    + rewrite append_nil_l in Heq. by apply IH2.
    + rewrite append_cons in Heq. injection Heq as -> <-.
      constructor; auto.
Qed.

(** The matcher decides [matches]. *)
Lemma fullmatch_matches (r : regex) (s : string) :
  fullmatch r s = true ↔ matches r s.
Proof.
  revert r. induction s as [|c s IH]; intros r; simpl.
  - apply nullable_matches.
  - rewrite IH. split; [apply deriv_matches_1 |].
    intros H. by apply deriv_matches_2 with (String c s).
Qed.

Lemma strip_final_newline_Some (s s' : string) :
  strip_final_newline s = Some s' ↔ s = s' +:+ nl.
Proof.
  revert s'. induction s as [|c s IH]; intros s'; simpl.
  - split; [done |]. intros H. symmetry in H. by apply append_eq_empty in H as [_ ?].
  - destruct s as [|c2 s2].
    + destruct (Ascii.eqb c newline) eqn:Hc.
      * apply Ascii.eqb_eq in Hc as ->. split.
        -- by intros [= <-].
        -- destruct s' as [|c' s']; [done |]. rewrite append_cons. intros [= _ H].
           symmetry in H. by apply append_eq_empty in H as [_ ?].
      * apply Ascii.eqb_neq in Hc. split; [done |].
        destruct s' as [|c' s'].
        -- rewrite append_nil_l. unfold nl. by intros [= ->].
        -- rewrite append_cons. intros [= _ H].
           symmetry in H. by apply append_eq_empty in H as [_ ?].
    + change (String c <$> strip_final_newline (String c2 s2) = Some s'
              ↔ String c (String c2 s2) = s' +:+ nl).
      rewrite fmap_Some. split.
      * intros (t & Ht & ->). apply IH in Ht. by rewrite append_cons, Ht.
      * destruct s' as [|c' s'].
        -- rewrite append_nil_l. unfold nl. by intros [=].
        -- rewrite append_cons. intros [= -> H]. apply IH in H. eauto.
Qed.

(** [re.match] accepts [s] when the pattern matches [s], or [s] less one
    final newline. *)
Lemma re_match_matches (r : regex) (s : string) :
  re_match r s = true ↔ ∃ body, up_to_final_newline s body ∧ matches r body.
Proof.
  unfold re_match, up_to_final_newline. rewrite orb_true_iff, fullmatch_matches.
  split.
  - intros [H | H]; [by eauto |].
    destruct (strip_final_newline s) as [s'|] eqn:Hs; [| done].
    apply strip_final_newline_Some in Hs. apply fullmatch_matches in H. eauto.
  - intros (body & [-> | Hs] & H); [by left |]. right.
    apply strip_final_newline_Some in Hs. rewrite Hs. by apply fullmatch_matches.
Qed.

(** ** The names [validate_metadata] accepts *)

Lemma all_in_cons (rs : list (ascii * ascii)) (c : ascii) (s : string) :
  all_in rs (String c s) = in_set c rs && all_in rs s.
Proof. reflexivity. Qed.

Lemma all_in_app (rs : list (ascii * ascii)) (a b : string) :
  all_in rs (a +:+ b) = all_in rs a && all_in rs b.
Proof.
  induction a as [|c a IH]; [done |].
  rewrite append_cons. simpl. by rewrite IH, andb_assoc.
Qed.

Lemma last_char_snoc (a : string) (d : ascii) :
  last_char (a +:+ String d "") = Some d.
Proof.
  induction a as [|c a IH]; [done |].
  rewrite append_cons. simpl. rewrite IH.
  destruct a; [by rewrite append_nil_l | by rewrite append_cons].
Qed.

Lemma string_snoc (s : string) : s ≠ "" → ∃ u d, s = u +:+ String d "".
Proof.
  induction s as [|c s IH]; [done |]. intros _. destruct s as [|c2 s2].
  - by exists "", c.
  - destruct IH as (u & d & Hu); [done |].
    exists (String c u), d. by rewrite append_cons, <- Hu.
Qed.

Lemma matches_star_set (rs : list (ascii * ascii)) (s : string) :
  matches (RStar (RSet rs)) s ↔ all_in rs s = true.
Proof.
  split.
  - intros H. remember (RStar (RSet rs)) as r eqn:Hr.
    induction H as [| | | | | r0 | r0 s1 s2 H1 _ H2 IH2]; try done.
    injection Hr as ->. inversion H1 as [| ? c Hc | | | | |]; subst.
    rewrite append_cons, append_nil_l. simpl. by rewrite Hc, IH2.
  - induction s as [|c s IH]; simpl; intros H; [constructor |].
    apply andb_true_iff in H as [Hc Hs].
    change (String c s) with (String c "" +:+ s).
    constructor; [by constructor | auto].
Qed.

Lemma lower_digit_dash (c : ascii) :
  in_set c lower_digit = true → in_set c dash_lower_digit = true.
Proof.
  intros H. change (in_range c ("-", "-")%char || in_set c lower_digit = true).
  rewrite H. apply orb_true_r.
Qed.

Lemma dash_dot (c : ascii) :
  in_set c dash_lower_digit = true → in_set c dot_dash_lower_digit = true.
Proof.
  intros H. change (in_range c (".", ".")%char || in_set c dash_lower_digit = true).
  rewrite H. apply orb_true_r.
Qed.

Lemma all_in_dash_dot (s : string) :
  all_in dash_lower_digit s = true → all_in dot_dash_lower_digit s = true.
Proof.
  induction s as [|c s IH]; [done |]. rewrite !all_in_cons.
  intros [Hc Hs]%andb_true_iff. by rewrite (dash_dot c Hc), IH.
Qed.

Lemma matches_block_name (s : string) :
  matches kale_block_name_regex s ↔ block_name s.
Proof.
  unfold kale_block_name_regex, ROpt, block_name. split.
  - intros H. inversion H as [| | ? ? s1 s2 H1 H2 | | | |]; subst.
    inversion H1 as [| ? c Hc | | | | |]; subst.
    rewrite append_cons, append_nil_l, all_in_cons, (lower_digit_dash c Hc).
    rewrite andb_true_l.
    inversion H2 as [| | | ? ? ? H3 | ? ? ? H3 | |]; subst.
    + inversion H3 as [| | ? ? u t Hu Ht | | | |]; subst.
      inversion Ht as [| ? d Hd | | | | |]; subst.
      apply matches_star_set in Hu.
      rewrite all_in_app, Hu, all_in_cons, (lower_digit_dash d Hd).
      split; [done |]. split; [by exists c |].
      exists d. split; [| done].
      rewrite <- append_cons. apply last_char_snoc.
    + inversion H3; subst. split; [done |]. split; by exists c.
  - intros (Hall & (c & Hfirst & Hc) & (d & Hlast & Hd)).
    destruct s as [|c0 s]; [done |]. injection Hfirst as ->.
    rewrite all_in_cons in Hall. apply andb_true_iff in Hall as [_ Hall].
    change (String c s) with (String c "" +:+ s).
    constructor; [by constructor |].
    destruct (decide (s = "")) as [-> | Hne]; [apply MAltR; constructor |].
    destruct (string_snoc s Hne) as (u & d' & ->).
    assert (d' = d) as ->.
    { assert (last_char (String c (u +:+ String d' "")) = Some d') as Hl.
      { rewrite <- append_cons. apply last_char_snoc. }
      congruence. }
    rewrite all_in_app in Hall. apply andb_true_iff in Hall as [Hu _].
    apply MAltL. constructor; [by apply matches_star_set | by constructor].
Qed.

Lemma matches_k8s_name (s : string) :
  matches k8s_valid_name_regex s ↔ k8s_name s.
Proof.
  unfold k8s_valid_name_regex, RPlus, k8s_name. split.
  - intros H. inversion H as [| | ? ? s1 s2 H1 H2 | | | |]; subst.
    inversion H1 as [| ? c Hc | | | | |]; subst.
    apply matches_star_set in H2.
    rewrite append_cons, append_nil_l, all_in_cons. by rewrite Hc, H2.
  - intros [Hne Hall]. destruct s as [|c s]; [done |].
    rewrite all_in_cons in Hall. apply andb_true_iff in Hall as [Hc Hs].
    change (String c s) with (String c "" +:+ s).
    constructor; [by constructor | by apply matches_star_set].
Qed.

(** X1.  The pipeline names [validate_metadata] accepts are the names its
    error message describes (lower case letters, digits and ['-'], starting
    and ending with a letter or a digit), and these names followed by one
    newline. *)
Theorem pipeline_name_accepted (s : string) :
  re_match kale_block_name_regex s = true
  ↔ ∃ body, up_to_final_newline s body ∧ block_name body.
Proof.
  rewrite re_match_matches. by setoid_rewrite matches_block_name.
Qed.

(** X2.  The volume and snapshot names [validate_metadata] accepts are the
    non-empty names of lower case letters, digits, ['-'] and ['.'], and
    these names followed by one newline. *)
Theorem resource_name_accepted (s : string) :
  re_match k8s_valid_name_regex s = true
  ↔ ∃ body, up_to_final_newline s body ∧ k8s_name body.
Proof.
  rewrite re_match_matches. by setoid_rewrite matches_k8s_name.
Qed.

(** X3.  A name that is accepted as a pipeline name is accepted as a volume
    name. *)
Theorem pipeline_name_is_resource_name (s : string) :
  re_match kale_block_name_regex s = true →
  re_match k8s_valid_name_regex s = true.
Proof.
  rewrite !re_match_matches.
  intros (body & Hs & (Hall & (c & Hfirst & _) & _)%matches_block_name).
  exists body. split; [done |]. apply matches_k8s_name.
  split; [by destruct body | by apply all_in_dash_dot].
Qed.

Lemma pipeline_name_is_resource_name_witness :
  re_match kale_block_name_regex "titanic-lr1" = true
  ∧ re_match k8s_valid_name_regex "titanic-lr1" = true.
Proof.
  assert (re_match kale_block_name_regex "titanic-lr1" = true) as H by reflexivity.
  split; [exact H | exact (pipeline_name_is_resource_name "titanic-lr1" H)].
Defined.

(** ** What [validate_metadata] accepts and what it reports *)

(** X4.  [validate_metadata] returns normally exactly when the pipeline
    name is accepted, [self.volumes] is a list, and no volume of the list
    is invalid; in particular it never does when [self.volumes] is
    [None]. *)
Theorem validate_metadata_accepts (k : Kale) :
  validate_metadata k = Ok tt
  ↔ re_match kale_block_name_regex (pipeline_name k) = true
    ∧ ∃ vs, volumes k = Some vs ∧ ∀ v, v ∈ vs → ¬ invalid_volume v.
Proof.
  unfold validate_metadata.
  destruct (re_match kale_block_name_regex (pipeline_name k)); simpl.
  2: { split; [done | by intros [? _]]. }
  destruct (volumes k) as [vs|].
  2: { split; [done | by intros [_ (? & ? & _)]]. }
  destruct (validate_volumes_cases vs) as [[-> Hall] | (msg & -> & v & Hin & Hv)].
  - split; [| done]. intros _. split; [done |]. by exists vs.
  - split; [done |]. intros [_ (vs' & [= <-] & Hall)]. by destruct (Hall v Hin).
Qed.

Lemma validate_volumes_first_invalid (vs1 vs2 : list volume) (v : volume) :
  (∀ v', v' ∈ vs1 → ¬ invalid_volume v') →
  invalid_volume v →
  validate_volumes (vs1 ++ v :: vs2) = validate_volume v.
Proof.
  intros Hvalid Hv. induction vs1 as [|v1 vs1 IH]; simpl.
  - destruct (validate_volume_cases v) as [[_ Hok] | (msg & -> & _)]; done.
  - destruct (validate_volume_cases v1) as [[-> _] | (msg & _ & Hbad)].
    + simpl. apply IH. intros v' Hin. apply Hvalid. apply elem_of_cons. by right.
    + exfalso. apply (Hvalid v1); [| done]. apply elem_of_cons. by left.
Qed.

(** X5.  When the pipeline name is accepted, the error [validate_metadata]
    raises is the one of the first invalid volume of the list, whatever the
    volumes after it are; for that volume a missing name is reported before
    a name that does not match, and this before the snapshot name. *)
Theorem validate_metadata_first_invalid (k : Kale) (vs1 vs2 : list volume)
    (v : volume) :
  re_match kale_block_name_regex (pipeline_name k) = true →
  volumes k = Some (vs1 ++ v :: vs2) →
  (∀ v', v' ∈ vs1 → ¬ invalid_volume v') →
  invalid_volume v →
  validate_metadata k = validate_volume v
  ∧ (lacks_name v →
     validate_volume v = Raise (ValueError "Provide a valid name for every volume"))
  ∧ (name_mismatch v →
     validate_volume v = Raise (ValueError ("PV/PVC resource name " +:+ k8s_name_msg))).
Proof.
  intros Hname Hvols Hvalid Hv. split; [| split].
  - unfold validate_metadata. rewrite Hname, Hvols. simpl.
    by apply validate_volumes_first_invalid.
  - unfold lacks_name, validate_volume. by intros ->.
  - unfold name_mismatch, validate_volume. intros (n & -> & ->). done.
Qed.

Lemma validate_metadata_first_invalid_witness :
  let nameless :=
    {| vol_type := "pvc"; vol_name := None; vol_mount_point := None;
       vol_size := None; vol_snapshot := Some true; vol_snapshot_name := None;
       vol_annotation := None |} in
  let k :=
    {| source_path := "/nb/titanic.ipynb";
       output_path := "/nb/kfp_titanic.kfp.py";
       nbformat_version := 4; kfp_dns := None;
       upload_pipeline := false; run_pipeline := false;
       experiment_name := "exp"; pipeline_name := "titanic";
       pipeline_description := ""; docker_base_image := "python:3.7";
       volumes := Some ([workspace_clone] ++ nameless :: [nameless]) |} in
  re_match kale_block_name_regex (pipeline_name k) = true
  ∧ (∀ v', v' ∈ [workspace_clone] → ¬ invalid_volume v')
  ∧ invalid_volume nameless
  ∧ validate_metadata k = validate_volume nameless
  ∧ validate_volume nameless
    = Raise (ValueError "Provide a valid name for every volume").
Proof.
  intros nameless k.
  assert (re_match kale_block_name_regex (pipeline_name k) = true) as H1
    by reflexivity.
  assert (∀ v', v' ∈ [workspace_clone] → ¬ invalid_volume v') as H2.
  { intros v' ->%list_elem_of_singleton.
    destruct (validate_volume_cases workspace_clone) as [[_ H] | (msg & H & _)];
      [exact H | discriminate H]. }
  assert (invalid_volume nameless) as H3 by (by left).
  split; [exact H1 |]. split; [exact H2 |]. split; [exact H3 |].
  pose proof (validate_metadata_first_invalid k [workspace_clone] [nameless]
                nameless H1 eq_refl H2 H3) as (Hfirst & Hlacks & _).
  split; [exact Hfirst | exact (Hlacks eq_refl)].
Defined.

(** ** Construction *)

Section ConstructionLemmas.
Context {graph module : Type} (X : externals graph module).

Lemma run_cmd_ok_world (cmd : string) (w : world) (out : string) :
  (run_cmd X cmd w).2 = Ok out → (run_cmd X cmd w).1 = w.
Proof. unfold run_cmd. unfold_M. by destruct (negb _). Qed.

Lemma create_cloned_volumes_ok_world (vs : list volume) (w : world) r :
  (create_cloned_volumes X vs w).2 = Ok r → (create_cloned_volumes X vs w).1 = w.
Proof.
  unfold create_cloned_volumes.
  destruct (negb (existsb is_clone vs)); [done |]. unfold_M.
  destruct (get_namespace X) as [ns|e]; simpl; [| done].
  pose proof (run_cmd_ok_world (snapshot_command X ns) w) as Hw.
  destruct (run_cmd X (snapshot_command X ns) w) as [w' [out|e]]; simpl in *; [| done].
  rewrite (Hw out eq_refl).
  destruct (json_group_members X out) as [members|e]; simpl; [| done].
  by destruct (clone_volumes vs members).
Qed.

(** What a construction that returns has done. *)
Lemma Kale_init_ok_inv (a : kale_args) (w w' : world) (k : Kale) :
  Kale_init X a w = (w', Ok k) →
  w' = w
  ∧ is_Some (fs w !! source_notebook_path a)
  ∧ ∃ nb_vols,
      list_volumes X = Ok nb_vols
      ∧ (create_cloned_volumes X (requested_volumes a nb_vols) w).2 = Ok (volumes k).
Proof.
  unfold Kale_init. unfold_M. simpl.
  destruct (bool_decide (is_Some (fs w !! source_notebook_path a))) eqn:Hdoc;
    simpl; [| done].
  apply bool_decide_eq_true in Hdoc.
  destruct (list_volumes X) as [nb_vols|e]; simpl; [| done].
  pose proof (create_cloned_volumes_ok_world (requested_volumes a nb_vols) w) as Hw.
  destruct (create_cloned_volumes X (requested_volumes a nb_vols) w)
    as [w1 [c|e]] eqn:Hc; simpl in *; [| done].
  intros [= <- <-]. rewrite (Hw c eq_refl).
  split; [done |]. split; [done |]. exists nb_vols. split; [done |].
  by rewrite Hc.
Qed.

End ConstructionLemmas.

(** X6.  A [Kale] object built from volumes none of which is a clone has
    [self.volumes] set to [None], and every [run] of it stops in the
    validation of the metadata: no stage after it is started and no file is
    written.  When the pipeline name is accepted the exception is the
    [TypeError] of iterating over [None]. *)
Theorem no_clone_never_compiles {graph module} (X : externals graph module)
    (a : kale_args) (w0 w1 : world) (k : Kale) (nb_vols : list (string * (string * string))) :
  Kale_init X a w0 = (w1, Ok k) →
  list_volumes X = Ok nb_vols →
  (∀ v, v ∈ requested_volumes a nb_vols → vol_type v ≠ "clone") →
  volumes k = None
  ∧ ∀ w, ∃ e,
      run X k w = (aborted w [Started SValidate] e, Ok tt)
      ∧ (re_match kale_block_name_regex (pipeline_name k) = true →
         e = TypeError "'NoneType' object is not iterable").
Proof.
  intros Hinit Hnb Hno.
  destruct (Kale_init_ok_inv X a w0 w1 k Hinit) as (_ & _ & nb' & Hnb' & Hvols).
  rewrite Hnb in Hnb'. injection Hnb' as <-.
  apply existsb_is_clone_false in Hno.
  unfold create_cloned_volumes in Hvols. rewrite Hno in Hvols. simpl in Hvols.
  injection Hvols as Hvols. symmetry in Hvols. split; [done |].
  intros w.
  destruct (validate_metadata k) as [[]|e] eqn:Hv.
  - apply validate_metadata_accepts in Hv as [_ (vs & Hvs & _)]. congruence.
  - exists e. split.
    + apply (run_raises_in X k w [] SValidate e). by constructor.
    + intros Hname. unfold validate_metadata in Hv.
      rewrite Hname, Hvols in Hv. simpl in Hv. by injection Hv as <-.
Qed.

Lemma scenario_no_clone_constructed :
  Kale_init X_no_volumes (args_with (Some [data_pvc])) world0
  = (world0,
     Ok {| source_path := "/nb/titanic.ipynb";
           output_path := "/nb/kfp_titanic.kfp.py";
           nbformat_version := 4; kfp_dns := None;
           upload_pipeline := false; run_pipeline := false;
           experiment_name := "exp"; pipeline_name := "titanic";
           pipeline_description := ""; docker_base_image := "python:3.7";
           volumes := None |}).
Proof. vm_compute. reflexivity. Defined.

Lemma no_clone_never_compiles_witness :
  let k :=
    {| source_path := "/nb/titanic.ipynb";
       output_path := "/nb/kfp_titanic.kfp.py";
       nbformat_version := 4; kfp_dns := None;
       upload_pipeline := false; run_pipeline := false;
       experiment_name := "exp"; pipeline_name := "titanic";
       pipeline_description := ""; docker_base_image := "python:3.7";
       volumes := None |} in
  Kale_init X_no_volumes (args_with (Some [data_pvc])) world0 = (world0, Ok k)
  ∧ list_volumes X_no_volumes = Ok []
  ∧ (∀ v, v ∈ requested_volumes (args_with (Some [data_pvc])) [] →
          vol_type v ≠ "clone")
  ∧ volumes k = None
  ∧ ∀ w, ∃ e,
      run X_no_volumes k w = (aborted w [Started SValidate] e, Ok tt)
      ∧ (re_match kale_block_name_regex (pipeline_name k) = true →
         e = TypeError "'NoneType' object is not iterable").
Proof.
  intros k.
  assert (∀ v, v ∈ requested_volumes (args_with (Some [data_pvc])) [] →
               vol_type v ≠ "clone") as H3.
  { intros v Hv. apply list_elem_of_singleton in Hv as ->. done. }
  split; [exact scenario_no_clone_constructed |]. split; [reflexivity |].
  split; [exact H3 |].
  exact (no_clone_never_compiles X_no_volumes (args_with (Some [data_pvc]))
           world0 world0 k [] scenario_no_clone_constructed eq_refl H3).
Defined.

Lemma clone_volumes_ok_iff (vs : list volume) (members : list snapshot_member) :
  (∃ l, clone_volumes vs members = Ok l) ↔ Forall (resolvable members) vs.
Proof.
  induction vs as [|v vs IH]; simpl.
  - split; [constructor | by eauto].
  - split.
    + intros [l Hl]. destruct (is_clone v) eqn:Hc.
      * unfold _get_cloned_volume in Hl.
        destruct (vol_name v) as [n|] eqn:Hn; [| done].
        destruct (find_snapshot n members) as [snap|] eqn:Hf; [| done].
        simpl in Hl. destruct (clone_volumes vs members) as [l'|e]; [| done].
        constructor; [intros _; eauto | apply IH; eauto].
      * simpl in Hl. destruct (clone_volumes vs members) as [l'|e]; [| done].
        constructor; [| apply IH; eauto].
        intros Hclone%is_clone_true. congruence.
    + intros [Hv Hvs]%Forall_cons. apply IH in Hvs as [l' ->].
      destruct (is_clone v) eqn:Hc; [| simpl; eauto].
      apply is_clone_true in Hc. destruct (Hv Hc) as (n & snap & Hn & Hf).
      unfold _get_cloned_volume. rewrite Hn, Hf. simpl. eauto.
Qed.

(** X7.  [Kale(...)] returns an object exactly when the notebook exists,
    the volumes of the notebook can be listed and, if a volume to resolve
    is a clone, the namespace is known, the snapshot command exits with code
    0, its output has the snapshot members and every clone has a name that
    is the name of a member.  The construction then leaves the files and
    the log as they were. *)
Theorem Kale_init_succeeds {graph module} (X : externals graph module)
    (a : kale_args) (w : world) :
  ((∃ k w', Kale_init X a w = (w', Ok k))
   ↔ (is_Some (fs w !! source_notebook_path a)
     ∧ ∃ nb_vols,
         list_volumes X = Ok nb_vols
         ∧ ((∀ v, v ∈ requested_volumes a nb_vols → vol_type v ≠ "clone")
            ∨ ∃ namespace members,
                get_namespace X = Ok namespace
                ∧ exit_code (popen X (snapshot_command X namespace)) = 0%Z
                ∧ json_group_members X
                    (stdout (popen X (snapshot_command X namespace))) = Ok members
                ∧ Forall (resolvable members) (requested_volumes a nb_vols))))
  ∧ ∀ k w', Kale_init X a w = (w', Ok k) → w' = w.
Proof.
  split; [| intros k w' H; by destruct (Kale_init_ok_inv X a w w' k H)].
  split.
  - intros (k & w' & Hinit).
    destruct (Kale_init_ok_inv X a w w' k Hinit) as (_ & Hdoc & nb & Hnb & Hvols).
    split; [done |]. exists nb. split; [done |].
    unfold create_cloned_volumes in Hvols.
    destruct (existsb is_clone (requested_volumes a nb)) eqn:Hc; simpl in Hvols.
    2: { left. by apply existsb_is_clone_false. }
    right. unfold_M. unfold run_cmd in Hvols. unfold_M.
    destruct (get_namespace X) as [ns|e]; simpl in Hvols; [| done].
    destruct (exit_code (popen X (snapshot_command X ns)) =? 0)%Z eqn:Hexit;
      simpl in Hvols; [| done].
    apply Z.eqb_eq in Hexit.
    destruct (json_group_members X _) as [members|e] eqn:Hj; simpl in Hvols; [| done].
    destruct (clone_volumes (requested_volumes a nb) members) as [l|e] eqn:Hl;
      simpl in Hvols; [| done].
    exists ns, members. repeat (split; [done |]).
    apply clone_volumes_ok_iff. eauto.
  - intros (Hdoc & nb & Hnb & Hres).
    unfold Kale_init. unfold_M. simpl.
    rewrite bool_decide_eq_true_2 by done. simpl. rewrite Hnb. simpl.
    unfold create_cloned_volumes.
    destruct Hres as [Hno | (ns & members & Hns & Hexit & Hj & Hall)].
    + apply existsb_is_clone_false in Hno. rewrite Hno. simpl. eauto.
    + destruct (existsb is_clone (requested_volumes a nb)); simpl; [| eauto].
      unfold run_cmd. unfold_M. rewrite Hns. simpl. rewrite Hexit. simpl.
      rewrite Hj. simpl.
      apply clone_volumes_ok_iff in Hall as [l ->]. simpl. eauto.
Qed.

Lemma Kale_init_succeeds_witness :
  (∃ k w', Kale_init X_ok args0 world0 = (w', Ok k))
  ∧ (Kale_init X_ok args0 world0).1 = world0.
Proof.
  destruct (Kale_init_succeeds X_ok args0 world0) as [_ Hworld].
  split.
  - exists (kale "titanic" false), world0. vm_compute. reflexivity.
  - symmetry. apply (Hworld (kale "titanic" false)).
    vm_compute. reflexivity.
Defined.

Lemma clone_volumes_shape (vs l : list volume) (members : list snapshot_member) :
  clone_volumes vs members = Ok l →
  map vol_name l = map vol_name vs
  ∧ map vol_mount_point l = map vol_mount_point vs
  ∧ map vol_size l = map vol_size vs
  ∧ existsb is_clone l = false.
Proof.
  intros H. apply clone_volumes_resolved in H.
  induction H as [|v v' vs l Hv _ IH]; [done |].
  destruct IH as (IH1 & IH2 & IH3 & IH4). simpl. rewrite IH1, IH2, IH3, IH4.
  unfold resolved_from in Hv. unfold is_clone at 1.
  destruct (String.eqb (vol_type v) "clone") eqn:Hc.
  - destruct Hv as (n & snap & _ & _ & ->). done.
  - subst v'. by rewrite Hc.
Qed.

(** X8.  The list [create_cloned_volumes] returns has the volumes of the
    list it is given, in the same order and with the same names, mount
    points and sizes, and none of them is a clone any more; resolving this
    list again therefore returns [None], not the list. *)
Theorem create_cloned_volumes_shape {graph module} (X : externals graph module)
    (vs l : list volume) (w : world) :
  (create_cloned_volumes X vs w).2 = Ok (Some l) →
  map vol_name l = map vol_name vs
  ∧ map vol_mount_point l = map vol_mount_point vs
  ∧ map vol_size l = map vol_size vs
  ∧ (∀ v, v ∈ l → vol_type v ≠ "clone")
  ∧ ∀ w', create_cloned_volumes X l w' = (w', Ok None).
Proof.
  intros Hl. unfold create_cloned_volumes in Hl.
  destruct (existsb is_clone vs); simpl in Hl; [| done].
  unfold_M. destruct (get_namespace X) as [ns|e]; simpl in Hl; [| done].
  destruct (run_cmd X (snapshot_command X ns) w) as [w1 [out|e]];
    simpl in Hl; [| done].
  destruct (json_group_members X out) as [members|e]; simpl in Hl; [| done].
  destruct (clone_volumes vs members) as [l'|e] eqn:Hcl; simpl in Hl; [| done].
  injection Hl as <-.
  destruct (clone_volumes_shape vs l' members Hcl) as (H1 & H2 & H3 & H4).
  repeat (split; [done |]). split; [by apply existsb_is_clone_false |].
  intros w'. unfold create_cloned_volumes. by rewrite H4.
Qed.

Lemma scenario_cloned :
  (create_cloned_volumes X_ok
     [data_pvc; notebook_volume ("/home/jovyan", ("workspace-vol", "5Gi"))]
     world0).2
  = Ok (Some [data_pvc; workspace_clone]).
Proof. vm_compute. reflexivity. Defined.

Lemma create_cloned_volumes_shape_witness :
  let vs := [data_pvc; notebook_volume ("/home/jovyan", ("workspace-vol", "5Gi"))] in
  let l := [data_pvc; workspace_clone] in
  (create_cloned_volumes X_ok vs world0).2 = Ok (Some l)
  ∧ map vol_name l = map vol_name vs
  ∧ map vol_mount_point l = map vol_mount_point vs
  ∧ map vol_size l = map vol_size vs
  ∧ (∀ v, v ∈ l → vol_type v ≠ "clone")
  ∧ ∀ w', create_cloned_volumes X_ok l w' = (w', Ok None).
Proof.
  intros vs l. split; [exact scenario_cloned |].
  exact (create_cloned_volumes_shape X_ok vs l world0 scenario_cloned).
Defined.

Lemma find_snapshot_first (name : string) (m1 m2 : list snapshot_member)
    (snap : snapshot_member) :
  (∀ m, m ∈ m1 → object_name m ≠ name) →
  object_name snap = name →
  find_snapshot name (m1 ++ snap :: m2) = Some snap.
Proof.
  intros Hno Hsnap. induction m1 as [|m m1 IH]; simpl.
  - apply String.eqb_eq in Hsnap. by rewrite Hsnap.
  - assert (object_name m ≠ name) as Hm%String.eqb_neq
      by (apply Hno, elem_of_cons; by left).
    rewrite Hm. apply IH. intros m' Hin. apply Hno, elem_of_cons. by right.
Qed.

(** X9.  When several members of the snapshot have the name of a volume,
    [_get_cloned_volume] annotates the copy with the origin of the first of
    them; the copy keeps every other key of the volume and has type
    ['new_pvc']. *)
Theorem _get_cloned_volume_first_member (v : volume) (name : string)
    (m1 m2 : list snapshot_member) (snap : snapshot_member) :
  vol_name v = Some name →
  (∀ m, m ∈ m1 → object_name m ≠ name) →
  object_name snap = name →
  ∃ v', _get_cloned_volume v (m1 ++ snap :: m2) = Ok v'
        ∧ vol_type v' = "new_pvc"
        ∧ vol_annotation v' = Some ("rok/origin", rok_url snap)
        ∧ vol_name v' = vol_name v
        ∧ vol_mount_point v' = vol_mount_point v
        ∧ vol_size v' = vol_size v
        ∧ vol_snapshot v' = vol_snapshot v
        ∧ vol_snapshot_name v' = vol_snapshot_name v.
Proof.
  intros Hn Hno Hsnap. unfold _get_cloned_volume.
  rewrite Hn, (find_snapshot_first name m1 m2 snap Hno Hsnap).
  eexists. split; [reflexivity |]. by repeat split.
Qed.

Lemma _get_cloned_volume_first_member_witness :
  let v := notebook_volume ("/home/jovyan", ("workspace-vol", "5Gi")) in
  let other := {| object_name := "data"; rok_url := "rok:snap-0" |} in
  let first := {| object_name := "workspace-vol"; rok_url := "rok:snap-1" |} in
  let second := {| object_name := "workspace-vol"; rok_url := "rok:snap-2" |} in
  vol_name v = Some "workspace-vol"
  ∧ (∀ m, m ∈ [other] → object_name m ≠ "workspace-vol")
  ∧ object_name first = "workspace-vol"
  ∧ ∃ v', _get_cloned_volume v ([other] ++ first :: [second]) = Ok v'
          ∧ vol_type v' = "new_pvc"
          ∧ vol_annotation v' = Some ("rok/origin", rok_url first)
          ∧ vol_name v' = vol_name v
          ∧ vol_mount_point v' = vol_mount_point v
          ∧ vol_size v' = vol_size v
          ∧ vol_snapshot v' = vol_snapshot v
          ∧ vol_snapshot_name v' = vol_snapshot_name v.
Proof.
  intros v other first second.
  assert (∀ m, m ∈ [other] → object_name m ≠ "workspace-vol") as H2.
  { intros m ->%list_elem_of_singleton. done. }
  split; [reflexivity |]. split; [exact H2 |]. split; [reflexivity |].
  exact (_get_cloned_volume_first_member v "workspace-vol" [other] [second] first
           eq_refl H2 eq_refl).
Defined.

(** X10.  A clone volume that has no name makes the resolution raise
    [KeyError('name')], whatever the snapshot members are (also when there
    is none) and whatever volumes follow it. *)
Theorem clone_without_name (vs1 vs2 l1 : list volume) (v : volume)
    (members : list snapshot_member) :
  clone_volumes vs1 members = Ok l1 →
  vol_type v = "clone" →
  vol_name v = None →
  clone_volumes (vs1 ++ v :: vs2) members = Raise (KeyError "name").
Proof.
  intros H1 Hc%is_clone_true Hn. revert l1 H1.
  induction vs1 as [|v1 vs1 IH]; simpl; intros l1 H1.
  - rewrite Hc. unfold _get_cloned_volume. by rewrite Hn.
  - destruct (if is_clone v1 then _ else _) as [v1'|e]; simpl in *; [| done].
    destruct (clone_volumes vs1 members) as [l'|e] eqn:Hl; [| done].
    by rewrite (IH l' eq_refl).
Qed.

Lemma clone_without_name_witness :
  let nameless :=
    {| vol_type := "clone"; vol_name := None; vol_mount_point := Some "/data";
       vol_size := None; vol_snapshot := None; vol_snapshot_name := None;
       vol_annotation := None |} in
  clone_volumes [data_pvc] [] = Ok [data_pvc]
  ∧ vol_type nameless = "clone"
  ∧ vol_name nameless = None
  ∧ clone_volumes ([data_pvc] ++ nameless :: [data_pvc]) [] = Raise (KeyError "name").
Proof.
  intros nameless. split; [reflexivity |]. split; [reflexivity |].
  split; [reflexivity |].
  exact (clone_without_name [data_pvc] [data_pvc] [data_pvc] nameless []
           eq_refl eq_refl eq_refl).
Defined.

(** ** A deployment that goes through *)

Section DeploySuccess.
Context {graph module : Type} (X : externals graph module).

Lemma submit_ok (k : Kale) (run_id : string) (w : world) :
  submit_succeeds X k run_id →
  submit X k w =
    (if run_pipeline k
     then {| fs := fs w;
             log := log w
                    ++ [(INFO, "Deployment Successful. Pipeline run at "
                               +:+ (str_or_None (kfp_dns k) +:+ "/#/runs/details/"
                                    +:+ run_id))];
             trace := trace w |}
     else w, Ok tt).
Proof.
  intros (Hc & Hu & Hr). unfold submit. unfold_M. rewrite Hc. simpl.
  destruct (upload_pipeline k); [rewrite Hu by done |]; simpl;
    (destruct (run_pipeline k); [| done]);
    by destruct (Hr eq_refl) as (ex & -> & ->).
Qed.

Lemma deploy_ok (k : Kale) (p : string) (w : world)
    (tmp_dir code package run_id : string) (foo : module) :
  mkdtemp X = Ok tmp_dir →
  fs w !! p = Some code →
  exec_module X (last_component tmp_dir) code = Ok foo →
  kfp_compile X foo = Ok package →
  submit_succeeds X k run_id →
  (deploy_pipeline_to_kfp X k p w).2 = Ok tt
  ∧ fs (deploy_pipeline_to_kfp X k p w).1
    = <[pipeline_filename k := package]>
        (<[tmp_dir +:+ "/" +:+ "pipeline_code.py" := code]> (fs w)).
Proof.
  intros Htmp Hp Hfoo Hpkg Hsub.
  unfold deploy_pipeline_to_kfp, copyfile. unfold_M.
  rewrite Htmp. simpl. rewrite Hp. simpl. rewrite lookup_insert_eq. simpl.
  rewrite Hfoo. simpl. rewrite Hpkg. simpl.
  rewrite (submit_ok k run_id _ Hsub). by destruct (run_pipeline k).
Qed.

End DeploySuccess.

(** X11.  A run in which no stage raises and the deployment goes through
    ends with three files written: the generated script, its copy in the
    temporary directory (the text that is imported is the text that was
    generated) and the package, which stays where it is; every stage,
    deployment included, has started and finished. *)
Theorem run_deploys {graph module} (X : externals graph module)
    (k : Kale) (w : world) g block params g' code
    (tmp_dir package run_id : string) (foo : module) :
  compiles X k w g block params g' code →
  upload_pipeline k || run_pipeline k = true →
  mkdtemp X = Ok tmp_dir →
  exec_module X (last_component tmp_dir) code = Ok foo →
  kfp_compile X foo = Ok package →
  submit_succeeds X k run_id →
  fs (run X k w).1
  = <[pipeline_name k +:+ ".pipeline.tar.gz" := package]>
      (<[tmp_dir +:+ "/" +:+ "pipeline_code.py" := code]>
         (<[output_path k := code]> (fs w)))
  ∧ new_events w (run X k w).1
    = stage_events (compile_stages (ignore_symbols_of params) ++ [SDeploy]).
Proof.
  intros Hc Hflag Htmp Hfoo Hpkg Hsub. rewrite run_unfold.
  destruct (run_body_cases X k (started w))
    as [(done & s & e & Hr & _)
       | (g0 & block0 & params0 & g0' & code0 & Hc0 & ->)].
  { exfalso. destruct Hc as (Hv & Hp & Hd & Ha & Hg). simpl in *.
    destruct Hr; simpl in *; congruence. }
  assert (params0 = params ∧ code0 = code) as [-> ->].
  { destruct Hc as (Hv & Hp & Hd & Ha & Hg), Hc0 as (Hv0 & Hp0 & Hd0 & Ha0 & Hg0).
    simpl in *. rewrite Hp in Hp0. injection Hp0 as <- <-.
    rewrite Hd in Hd0. injection Hd0 as <-.
    rewrite Ha in Ha0. injection Ha0 as <-.
    rewrite Hg in Hg0. by injection Hg0 as <-. }
  rewrite Hflag.
  pose proof (in_stage_deploy X k (saved k (started w) params code))
    as (Hfs & Htr & Hres).
  assert (fs (with_trace (saved k (started w) params code) [Started SDeploy])
            !! output_path k = Some code) as Hscript
    by (simpl; apply lookup_insert_eq).
  destruct (deploy_ok X k (output_path k) _ tmp_dir code package run_id foo
              Htmp Hscript Hfoo Hpkg Hsub) as [Hok Hfiles].
  simpl in Hfs, Htr, Hres. rewrite Hok in Hres, Htr. rewrite Hfiles in Hfs.
  destruct (in_stage SDeploy (deploy_pipeline_to_kfp X k (output_path k))
              (saved k (started w) params code)) as [w' r].
  simpl in *. subst r. simpl. split; [exact Hfs |].
  apply new_events_app. rewrite Htr. unfold stage_events, compile_stages. simpl.
  by rewrite <- app_assoc.
Qed.

Lemma scenario_compiles (deploy : bool) :
  compiles X_ok (kale "titanic" deploy) world0 skeleton "n = 5"
    [("n", ("int", "5"))] scenario_annotated "# pipeline titanic".
Proof. repeat split; vm_compute; reflexivity. Defined.

Lemma scenario_submit_succeeds : submit_succeeds X_ok (kale "titanic" true) "run-7".
Proof.
  split; [reflexivity |]. split; [done |]. intros _. by exists "exp-1".
Defined.

Lemma run_deploys_witness :
  let k := kale "titanic" true in
  compiles X_ok k world0 skeleton "n = 5" [("n", ("int", "5"))] scenario_annotated
    "# pipeline titanic"
  ∧ upload_pipeline k || run_pipeline k = true
  ∧ mkdtemp X_ok = Ok "/tmp/tmpk4l3"
  ∧ exec_module X_ok (last_component "/tmp/tmpk4l3") "# pipeline titanic"
    = Ok "# pipeline titanic"
  ∧ kfp_compile X_ok "# pipeline titanic" = Ok "package"
  ∧ submit_succeeds X_ok k "run-7"
  ∧ fs (run X_ok k world0).1
    = <[pipeline_name k +:+ ".pipeline.tar.gz" := "package"]>
        (<["/tmp/tmpk4l3" +:+ "/" +:+ "pipeline_code.py" := "# pipeline titanic"]>
           (<[output_path k := "# pipeline titanic"]> (fs world0)))
  ∧ new_events world0 (run X_ok k world0).1
    = stage_events (compile_stages (ignore_symbols_of [("n", ("int", "5"))])
                    ++ [SDeploy]).
Proof.
  intros k.
  pose proof (scenario_compiles true) as Hc.
  split; [exact Hc |]. repeat (split; [reflexivity |]).
  split; [exact scenario_submit_succeeds |].
  exact (run_deploys X_ok k world0 _ _ _ _ _ "/tmp/tmpk4l3" "package" "run-7"
           "# pipeline titanic" Hc eq_refl eq_refl eq_refl eq_refl
           scenario_submit_succeeds).
Defined.

(** ** The command line *)

Section MainLemmas.
Context {graph module : Type} (X : externals graph module).

(** What [__init__] stores of its arguments. *)
Lemma Kale_init_fields (a : kale_args) (w w' : world) (k : Kale) :
  Kale_init X a w = (w', Ok k) →
  kfp_dns k = (λ d, "http://" +:+ d +:+ "/pipeline") <$> arg_kfp_dns a
  ∧ upload_pipeline k = arg_upload_pipeline a
  ∧ run_pipeline k = arg_run_pipeline a
  ∧ experiment_name k = arg_experiment_name a
  ∧ pipeline_description k = arg_pipeline_descr a
  ∧ docker_base_image k = arg_docker_image a
  ∧ nbformat_version k = arg_notebook_version a.
Proof.
  unfold Kale_init. unfold_M. simpl.
  destruct (negb (bool_decide (is_Some (fs w !! source_notebook_path a)))); [done |].
  destruct (list_volumes X) as [nb_vols|e]; simpl; [| done].
  destruct (create_cloned_volumes X (requested_volumes a nb_vols) w)
    as [w1 [c|e]]; [| done].
  by intros [= <- <-].
Qed.

Lemma single_kale_args_inv (ma : metadata_arguments) (w : world) (a : kale_args) :
  (single_kale_args ma w).2 = Ok a →
  arg_kfp_dns a = None ∧ arg_notebook_version a = 4%Z
  ∧ source_notebook_path a = ma_nb ma
  ∧ ma_pipeline_name ma = Some (arg_pipeline_name a).
Proof.
  unfold single_kale_args, getitem. unfold_M.
  destruct (ma_experiment_name ma); simpl; [| done].
  destruct (ma_pipeline_name ma); simpl; [| done].
  destruct (ma_pipeline_description ma); simpl; [| done].
  destruct (ma_docker_image ma); simpl; [| done].
  destruct (ma_volumes ma); simpl; [| done].
  by intros [= <-].
Qed.

Lemma generated_kale_args_inv (ma : metadata_arguments) (n params : string)
    (w : world) (a : kale_args) :
  (generated_kale_args ma n params w).2 = Ok a →
  arg_kfp_dns a = None ∧ arg_notebook_version a = 4%Z
  ∧ source_notebook_path a = n
  ∧ ∃ pipeline, ma_pipeline_name ma = Some pipeline
                ∧ arg_pipeline_name a = pipeline +:+ params.
Proof.
  unfold generated_kale_args, getitem. unfold_M.
  destruct (ma_experiment_name ma); simpl; [| done].
  destruct (ma_pipeline_name ma); simpl; [| done].
  destruct (ma_pipeline_description ma); simpl; [| done].
  destruct (ma_docker_image ma); simpl; [| done].
  destruct (ma_volumes ma); simpl; [| done].
  intros [= <-]. simpl. repeat (split; [done |]). eauto.
Qed.

End MainLemmas.

(** X12.  [main] never passes [kfp_dns] to [Kale(...)], so the object it
    builds has [self.kfp_dns] set to [None], and the link logged after a
    run has been submitted starts with the text [None]. *)
Theorem main_run_link {graph module} (X : externals graph module)
    (ma : metadata_arguments) (n params : string) (w0 w1 w : world)
    (a : kale_args) (k : Kale) (run_id : string) :
  (single_kale_args ma w0).2 = Ok a ∨ (generated_kale_args ma n params w0).2 = Ok a →
  Kale_init X a w0 = (w1, Ok k) →
  run_pipeline k = true →
  submit_succeeds X k run_id →
  kfp_dns k = None
  ∧ submit X k w
    = ({| fs := fs w;
          log := log w
                 ++ [(INFO, "Deployment Successful. Pipeline run at None/#/runs/details/"
                            +:+ run_id)];
          trace := trace w |}, Ok tt).
Proof.
  intros Ha Hinit Hrun Hsub.
  assert (arg_kfp_dns a = None) as Hdns.
  { destruct Ha as [Ha | Ha].
    - by destruct (single_kale_args_inv ma w0 a Ha).
    - by destruct (generated_kale_args_inv ma n params w0 a Ha). }
  destruct (Kale_init_fields X a w0 w1 k Hinit) as (Hk & _).
  rewrite Hdns in Hk. simpl in Hk. split; [done |].
  rewrite (submit_ok X k run_id w Hsub), Hrun, Hk. reflexivity.
Qed.

(** X13.  [main] checks the required arguments first and in the order
    [experiment_name], [pipeline_name], [docker_image]: when one is missing
    it raises [ValueError] naming the first missing one, before any notebook
    is generated or compiled, and the world is as it was. *)
Theorem main_required_arguments {graph module} (X : externals graph module)
    (ma : metadata_arguments) (w : world) :
  ma_experiment_name ma = None ∨ ma_pipeline_name ma = None
  ∨ ma_docker_image ma = None →
  ∃ r,
    main X ma w = (w, Raise (ValueError ("Required argument not found: " +:+ r)))
    ∧ ((r = "experiment_name" ∧ ma_experiment_name ma = None)
       ∨ (r = "pipeline_name" ∧ is_Some (ma_experiment_name ma)
          ∧ ma_pipeline_name ma = None)
       ∨ (r = "docker_image" ∧ is_Some (ma_experiment_name ma)
          ∧ is_Some (ma_pipeline_name ma) ∧ ma_docker_image ma = None)).
Proof.
  intros H. unfold main, check_required. unfold_M.
  destruct (ma_experiment_name ma) as [ex|] eqn:Hex; simpl.
  2: { exists "experiment_name". split; [done | by left]. }
  destruct (ma_pipeline_name ma) as [pn|] eqn:Hpn; simpl.
  2: { exists "pipeline_name". split; [done |]. right; left. by eauto. }
  destruct (ma_docker_image ma) as [im|] eqn:Him; simpl.
  2: { exists "docker_image". split; [done |]. right; right. by eauto. }
  by destruct H as [? | [? | ?]].
Qed.

Lemma main_required_arguments_witness :
  let ma :=
    {| ma_nb := "/nb/titanic.ipynb";
       ma_experiment_name := Some "exp";
       ma_pipeline_name := None;
       ma_docker_image := None;
       ma_pipeline_description := None;
       ma_upload_pipeline := false;
       ma_run_pipeline := false;
       ma_volumes := None;
       ma_jupyter_args := Some "params.yml";
       ma_debug := false |} in
  (ma_experiment_name ma = None ∨ ma_pipeline_name ma = None
   ∨ ma_docker_image ma = None)
  ∧ ∃ r,
      main X_ok ma sweep_world
      = (sweep_world, Raise (ValueError ("Required argument not found: " +:+ r)))
      ∧ ((r = "experiment_name" ∧ ma_experiment_name ma = None)
         ∨ (r = "pipeline_name" ∧ is_Some (ma_experiment_name ma)
            ∧ ma_pipeline_name ma = None)
         ∨ (r = "docker_image" ∧ is_Some (ma_experiment_name ma)
            ∧ is_Some (ma_pipeline_name ma) ∧ ma_docker_image ma = None)).
Proof.
  intros ma.
  assert (ma_experiment_name ma = None ∨ ma_pipeline_name ma = None
          ∨ ma_docker_image ma = None) as H by (right; left; reflexivity).
  split; [exact H | exact (main_required_arguments X_ok ma sweep_world H)].
Defined.

Lemma main_run_link_witness :
  let ma :=
    {| ma_nb := "/nb/titanic.ipynb";
       ma_experiment_name := Some "exp";
       ma_pipeline_name := Some "titanic";
       ma_docker_image := Some "python:3.7";
       ma_pipeline_description := Some "";
       ma_upload_pipeline := false;
       ma_run_pipeline := true;
       ma_volumes := Some [];
       ma_jupyter_args := None;
       ma_debug := false |} in
  let a :=
    {| source_notebook_path := "/nb/titanic.ipynb";
       arg_experiment_name := "exp";
       arg_pipeline_name := "titanic";
       arg_pipeline_descr := "";
       arg_docker_image := "python:3.7";
       arg_volumes := Some [];
       arg_notebook_version := 4;
       arg_upload_pipeline := false;
       arg_run_pipeline := true;
       arg_kfp_dns := None;
       arg_debug := false |} in
  let k := kale "titanic" true in
  ((single_kale_args ma world0).2 = Ok a
   ∨ (generated_kale_args ma "" "" world0).2 = Ok a)
  ∧ Kale_init X_ok a world0 = (world0, Ok k)
  ∧ run_pipeline k = true
  ∧ submit_succeeds X_ok k "run-7"
  ∧ kfp_dns k = None
  ∧ submit X_ok k world0
    = ({| fs := fs world0;
          log := log world0
                 ++ [(INFO, "Deployment Successful. Pipeline run at None/#/runs/details/"
                            +:+ "run-7")];
          trace := trace world0 |}, Ok tt).
Proof.
  intros ma a k.
  assert ((single_kale_args ma world0).2 = Ok a
          ∨ (generated_kale_args ma "" "" world0).2 = Ok a) as H1
    by (left; reflexivity).
  assert (Kale_init X_ok a world0 = (world0, Ok k)) as H2
    by (vm_compute; reflexivity).
  split; [exact H1 |]. split; [exact H2 |]. split; [reflexivity |].
  split; [exact scenario_submit_succeeds |].
  exact (main_run_link X_ok ma "" "" world0 world0 world0 a k "run-7"
           H1 H2 eq_refl scenario_submit_succeeds).
Defined.

(** X14.  [pipeline_description] and [volumes] are not among the required
    arguments, but [main] subscripts both when it builds a [Kale] object:
    with the required arguments present and one of these two missing, it
    raises [KeyError] before anything is constructed, unless a sweep
    generates no notebook at all, in which case it returns. *)
Theorem main_missing_key {graph module} (X : externals graph module)
    (ma : metadata_arguments) (w : world) :
  is_Some (ma_experiment_name ma) →
  is_Some (ma_pipeline_name ma) →
  is_Some (ma_docker_image ma) →
  ma_pipeline_description ma = None ∨ ma_volumes ma = None →
  match ma_jupyter_args ma with
  | None => ∃ key, main X ma w = (w, Raise (KeyError key))
  | Some yml =>
      match generate_notebooks_from_yml X (ma_nb ma) yml with
      | Ok [] => main X ma w = (w, Ok tt)
      | Ok (_ :: _) => ∃ key, main X ma w = (w, Raise (KeyError key))
      | Raise e => main X ma w = (w, Raise e)
      end
  end.
Proof.
  intros [ex Hex] [pn Hpn] [im Him] Hmiss.
  assert (∀ n params, ∃ key,
            generated_kale_args ma n params w = (w, Raise (KeyError key))) as Hgen.
  { intros n params. unfold generated_kale_args, getitem. unfold_M.
    rewrite Hex, Hpn, Him. simpl.
    destruct (ma_pipeline_description ma); simpl; [| by eauto].
    destruct (ma_volumes ma); simpl; [| by eauto].
    by destruct Hmiss. }
  assert (∃ key, single_kale_args ma w = (w, Raise (KeyError key))) as Hsingle.
  { unfold single_kale_args, getitem. unfold_M.
    rewrite Hex, Hpn, Him. simpl.
    destruct (ma_pipeline_description ma); simpl; [| by eauto].
    destruct (ma_volumes ma); simpl; [| by eauto].
    by destruct Hmiss. }
  unfold main, check_required. unfold_M. rewrite Hex, Hpn, Him. simpl.
  destruct (ma_jupyter_args ma) as [yml|].
  - destruct (generate_notebooks_from_yml X (ma_nb ma) yml) as [[|[n params] rest]|e];
      simpl; [done | | done].
    destruct (Hgen n params) as [key Hkey]. exists key.
    unfold compile_generated. unfold_M. by rewrite Hkey.
  - destruct Hsingle as [key Hkey]. exists key.
    unfold compile_single. unfold_M. by rewrite Hkey.
Qed.

Lemma main_missing_key_witness :
  let ma :=
    {| ma_nb := "/nb/titanic.ipynb";
       ma_experiment_name := Some "exp";
       ma_pipeline_name := Some "titanic";
       ma_docker_image := Some "python:3.7";
       ma_pipeline_description := Some "survival";
       ma_upload_pipeline := false;
       ma_run_pipeline := false;
       ma_volumes := None;
       ma_jupyter_args := None;
       ma_debug := false |} in
  is_Some (ma_experiment_name ma)
  ∧ is_Some (ma_pipeline_name ma)
  ∧ is_Some (ma_docker_image ma)
  ∧ (ma_pipeline_description ma = None ∨ ma_volumes ma = None)
  ∧ ∃ key, main X_ok ma world0 = (world0, Raise (KeyError key)).
Proof.
  intros ma.
  assert (is_Some (ma_experiment_name ma)) as H1 by (by eexists).
  assert (is_Some (ma_pipeline_name ma)) as H2 by (by eexists).
  assert (is_Some (ma_docker_image ma)) as H3 by (by eexists).
  assert (ma_pipeline_description ma = None ∨ ma_volumes ma = None) as H4
    by (right; reflexivity).
  split; [exact H1 |]. split; [exact H2 |]. split; [exact H3 |].
  split; [exact H4 |].
  exact (main_missing_key X_ok ma world0 H1 H2 H3 H4).
Defined.

Section SweepOutcome.
Context {graph module : Type} (X : externals graph module).




End SweepOutcome.




(** The third notebook of this sweep is never compiled. *)
Example scenario_sweep_stopped :
  fs (sweep X_ok sweep_metadata
        [("/nb/gen1.ipynb", "-lr1"); ("/nb/missing.ipynb", "-lr2");
         ("/nb/gen2.ipynb", "-lr3")] sweep_world).1
    !! "/nb/kfp_titanic-lr3.kfp.py" = None.
Proof. vm_compute. reflexivity. Qed.

(** ** Where the script is written *)

Lemma append_inj_r (a b s : string) : a +:+ s = b +:+ s → a = b.
Proof.
  revert b. induction a as [|x a IH]; intros [|y b] H;
    rewrite ?append_nil_l, ?append_cons in H.
  - done.
  - apply (f_equal String.length) in H. simpl in H. rewrite length_append in H. lia.
  - apply (f_equal String.length) in H. simpl in H. rewrite length_append in H. lia.
  - injection H as -> H. by rewrite (IH b H).
Qed.

Lemma path_join_relative (a b : string) (c : ascii) :
  first_char b = Some c → c ≠ sep → path_join a b = dir_prefix a +:+ b.
Proof.
  intros Hb Hc. destruct b as [|c' b]; [done |]. injection Hb as ->.
  unfold path_join, dir_prefix. apply Ascii.eqb_neq in Hc. rewrite Hc.
  destruct (String.eqb a "" || ends_with_sep a); [done |].
  by rewrite append_assoc.
Qed.

Lemma output_path_of_prefix (source pipeline : string) :
  output_path_of source pipeline
  = dir_prefix (dirname source) +:+ ("kfp_" +:+ pipeline +:+ ".kfp.py").
Proof. unfold output_path_of. by apply path_join_relative with "k"%char. Qed.

(** X16.  Two notebooks of a sweep that are in the same directory get
    different scripts unless their parameter suffixes are equal: the path of
    the script determines the name of the pipeline. *)
Theorem sweep_scripts_distinct (n1 n2 pipeline params1 params2 : string) :
  dirname n1 = dirname n2 →
  output_path_of n1 (pipeline +:+ params1) = output_path_of n2 (pipeline +:+ params2) →
  params1 = params2.
Proof.
  intros Hdir. rewrite !output_path_of_prefix, Hdir.
  intros H%String.app_inj%String.app_inj.
  apply append_inj_r in H. by apply String.app_inj in H.
Qed.

Lemma sweep_scripts_distinct_witness :
  dirname "/nb/gen1.ipynb" = dirname "/nb/gen2.ipynb"
  ∧ output_path_of "/nb/gen1.ipynb" ("titanic" +:+ "-lr1")
    = output_path_of "/nb/gen2.ipynb" ("titanic" +:+ "-lr1")
  ∧ "-lr1" = "-lr1".
Proof.
  assert (dirname "/nb/gen1.ipynb" = dirname "/nb/gen2.ipynb") as H1 by reflexivity.
  assert (output_path_of "/nb/gen1.ipynb" ("titanic" +:+ "-lr1")
          = output_path_of "/nb/gen2.ipynb" ("titanic" +:+ "-lr1")) as H2
    by reflexivity.
  split; [exact H1 |]. split; [exact H2 |].
  exact (sweep_scripts_distinct "/nb/gen1.ipynb" "/nb/gen2.ipynb" "titanic"
           "-lr1" "-lr1" H1 H2).
Defined.

Lemma path_head_no_sep (f : string) : no_sep f = true → path_head f = "".
Proof.
  induction f as [|c f IH]; simpl; [done |].
  intros [Hc Hf]%andb_true_iff. rewrite (IH Hf).
  by apply negb_true_iff in Hc as ->.
Qed.

Lemma path_head_app_no_sep (a f : string) :
  no_sep f = true → path_head (a +:+ f) = path_head a.
Proof.
  intros Hf. induction a as [|c a IH].
  - rewrite append_nil_l. by apply path_head_no_sep.
  - rewrite append_cons. simpl. by rewrite IH.
Qed.

Lemma path_head_ends (a : string) : ends_with_sep a = true → path_head a = a.
Proof.
  induction a as [|c a IH]; [done |]. destruct a as [|c2 a2].
  - simpl. by intros ->.
  - intros H. change (ends_with_sep (String c2 a2) = true) in H.
    change (path_head (String c (String c2 a2)))
      with (match path_head (String c2 a2) with
            | EmptyString => if Ascii.eqb c sep then String c EmptyString else EmptyString
            | h => String c h
            end).
    by rewrite (IH H).
Qed.

Lemma ends_with_sep_snoc (a : string) : ends_with_sep (a +:+ "/") = true.
Proof.
  induction a as [|c a IH]; [done |]. rewrite append_cons.
  destruct a as [|c2 a2]; [done |]. rewrite append_cons in *. exact IH.
Qed.

Lemma rstrip_sep_snoc (a : string) : rstrip_sep (a +:+ "/") = rstrip_sep a.
Proof.
  induction a as [|c a IH]; [done |]. rewrite append_cons. simpl. by rewrite IH.
Qed.

Lemma rstrip_sep_id (a : string) : ends_with_sep a = false → rstrip_sep a = a.
Proof.
  induction a as [|c a IH]; [done |]. destruct a as [|c2 a2].
  - simpl. by intros ->.
  - intros H. change (ends_with_sep (String c2 a2) = false) in H.
    change (rstrip_sep (String c (String c2 a2)))
      with (match rstrip_sep (String c2 a2) with
            | EmptyString => if Ascii.eqb c sep then EmptyString else String c EmptyString
            | r => String c r
            end).
    by rewrite (IH H).
Qed.

Lemma ends_with_sep_rstrip (a : string) : ends_with_sep (rstrip_sep a) = false.
Proof.
  induction a as [|c a IH]; [done |]. simpl.
  destruct (rstrip_sep a) as [|c2 r] eqn:Hr.
  - by destruct (Ascii.eqb c sep) eqn:Hc.
  - exact IH.
Qed.

Lemma all_sep_snoc (a : string) : all_sep (a +:+ "/") = all_sep a.
Proof.
  induction a as [|c a IH]; [done |]. rewrite append_cons. simpl. by rewrite IH.
Qed.

Lemma all_sep_ends (a : string) : a ≠ "" → all_sep a = true → ends_with_sep a = true.
Proof.
  induction a as [|c a IH]; [done |]. intros _. simpl.
  intros [Hc Ha]%andb_true_iff. destruct a as [|c2 a2]; [done |]. by apply IH.
Qed.

(** A directory name ends with a separator only when it is made of
    separators. *)
Lemma dirname_ends (s : string) :
  ends_with_sep (dirname s) = true → all_sep (dirname s) = true.
Proof.
  unfold dirname.
  destruct (String.eqb (path_head s) "") eqn:He; simpl.
  - apply String.eqb_eq in He. by rewrite He.
  - destruct (all_sep (path_head s)) eqn:Ha; simpl; [done |].
    by rewrite ends_with_sep_rstrip.
Qed.

Lemma dirname_join_no_sep (s x : string) (c : ascii) :
  first_char x = Some c → c ≠ sep → no_sep x = true →
  dirname (path_join (dirname s) x) = dirname s.
Proof.
  intros Hx Hc Hno. rewrite (path_join_relative _ x c Hx Hc).
  pose proof (dirname_ends s) as Hends.
  set (d := dirname s) in *. unfold dir_prefix.
  destruct (String.eqb d "") eqn:Hd; simpl.
  - apply String.eqb_eq in Hd. rewrite Hd, append_nil_l.
    unfold dirname. by rewrite (path_head_no_sep x Hno).
  - destruct (ends_with_sep d) eqn:He.
    + unfold dirname at 1. rewrite (path_head_app_no_sep d x Hno), (path_head_ends d He).
      by rewrite (Hends eq_refl), andb_false_r.
    + unfold dirname at 1.
      rewrite (path_head_app_no_sep (d +:+ "/") x Hno).
      rewrite (path_head_ends _ (ends_with_sep_snoc d)).
      rewrite all_sep_snoc, rstrip_sep_snoc, (rstrip_sep_id d He).
      assert (all_sep d = false) as ->.
      { destruct (all_sep d) eqn:Ha; [| done].
        apply String.eqb_neq in Hd. by rewrite (all_sep_ends d Hd Ha) in He. }
      assert (String.eqb (d +:+ "/") "" = false) as ->.
      { apply String.eqb_neq. intros [_ ?]%append_eq_empty. done. }
      done.
Qed.

Lemma no_sep_app (a b : string) : no_sep (a +:+ b) = no_sep a && no_sep b.
Proof.
  induction a as [|c a IH]; [done |]. rewrite append_cons. simpl.
  by rewrite IH, andb_assoc.
Qed.

Lemma all_in_no_sep (s : string) : all_in dash_lower_digit s = true → no_sep s = true.
Proof.
  induction s as [|c s IH]; [done |]. rewrite all_in_cons. simpl.
  intros [Hc Hs]%andb_true_iff. rewrite (IH Hs), andb_true_r.
  destruct (Ascii.eqb c sep) eqn:Heq; [| done].
  apply Ascii.eqb_eq in Heq. subst c. discriminate Hc.
Qed.

(** X17.  With a pipeline name that [validate_metadata] accepts, the
    generated script is written in the directory of the notebook. *)
Theorem script_in_notebook_directory (source pipeline : string) :
  re_match kale_block_name_regex pipeline = true →
  dirname (output_path_of source pipeline) = dirname source.
Proof.
  intros (body & Hbody & (Hall & _)%matches_block_name)%re_match_matches.
  apply all_in_no_sep in Hall.
  assert (no_sep pipeline = true) as Hno.
  { destruct Hbody as [-> | ->]; [done |]. by rewrite no_sep_app, Hall. }
  unfold output_path_of. apply dirname_join_no_sep with "k"%char; [done | done |].
  by rewrite !no_sep_app, Hno.
Qed.

Lemma script_in_notebook_directory_witness :
  re_match kale_block_name_regex "titanic" = true
  ∧ dirname (output_path_of "/home/jovyan/nb.ipynb" "titanic")
    = dirname "/home/jovyan/nb.ipynb".
Proof.
  assert (re_match kale_block_name_regex "titanic" = true) as H by reflexivity.
  split; [exact H |].
  exact (script_in_notebook_directory "/home/jovyan/nb.ipynb" "titanic" H).
Defined.

(** A pipeline name with a separator takes the script elsewhere. *)
Example script_elsewhere :
  output_path_of "/nb/titanic.ipynb" "../x" = "/nb/kfp_../x.kfp.py".
Proof. reflexivity. Qed.

(** ** What [run] logs *)

Section LogLemmas.
Context {graph module : Type} (X : externals graph module).

Lemma submit_log (k : Kale) (w : world) :
  ∃ l, log (submit X k w).1 = log w ++ l ∧ Forall (λ r, r.1 = INFO) l.
Proof.
  assert (∃ l, log w = log w ++ l ∧ Forall (λ r : level * string, r.1 = INFO) l)
    as Hnil by (exists []; by rewrite app_nil_r).
  unfold submit. unfold_M.
  destruct (kfp_Client X) as [[]|e]; simpl; [| done].
  destruct (upload_pipeline k); simpl;
    [destruct (client_upload_pipeline X _ _) as [[]|e]; simpl; [| done] |];
    (destruct (run_pipeline k); simpl; [| done]);
    (destruct (client_create_experiment X _) as [ex|e]; simpl; [| done]);
    (destruct (client_run_pipeline X _ _ _) as [r|e]; simpl; [| done]);
    eexists; (split; [done |]); by constructor.
Qed.

Lemma deploy_log (k : Kale) (p : string) (w : world) :
  ∃ l, log (deploy_pipeline_to_kfp X k p w).1 = log w ++ l
       ∧ Forall (λ r, r.1 = INFO) l.
Proof.
  assert (∃ l, log w = log w ++ l ∧ Forall (λ r : level * string, r.1 = INFO) l)
    as Hnil by (exists []; by rewrite app_nil_r).
  unfold deploy_pipeline_to_kfp, copyfile, os_remove. unfold_M.
  destruct (mkdtemp X) as [tmp|e]; simpl; [| done].
  destruct (fs w !! p) as [c|]; simpl; [| done].
  destruct (exec_module X _ _) as [foo|e]; simpl; [| done].
  destruct (kfp_compile X foo) as [package|e]; simpl; [| done].
  match goal with |- context [submit X k ?w1] =>
    pose proof (submit_log k w1) as Hl;
    destruct (submit X k w1) as [w2 [[]|e]] end; simpl in *; [done |].
  by destruct (fs w2 !! _).
Qed.

Lemma run_body_log (k : Kale) (w : world) :
  ∃ l, log (run_body X k w).1 = log w ++ l ∧ Forall (λ r, r.1 = INFO) l.
Proof.
  destruct (run_body_cases X k w)
    as [(done & s & e & _ & ->)
       | (g & block & params & g' & code & _ & ->)].
  - exists []. by rewrite app_nil_r.
  - destruct (upload_pipeline k || run_pipeline k).
    + unfold_M.
      match goal with |- context [deploy_pipeline_to_kfp X k ?p ?w1] =>
        destruct (deploy_log k p w1) as (l & Hl & Hinfo);
        destruct (deploy_pipeline_to_kfp X k p w1) as [w2 [[]|e]] end;
        simpl in *; rewrite Hl, <- app_assoc;
        (eexists; split; [done |]); apply Forall_app; split; by try constructor.
    + simpl. eexists. split; [done |]. by constructor.
Qed.

End LogLemmas.

(** X18.  [run] returns [None] whether the compilation went through or
    not; what tells the two apart is the log: [run] logs at level [ERROR]
    exactly when its [try] body raised. *)
Theorem run_logs_error_iff {graph module} (X : externals graph module)
    (k : Kale) (w : world) :
  (run X k w).2 = Ok tt
  ∧ ((∃ msg, (ERROR, msg) ∈ drop (length (log w)) (log (run X k w).1))
     ↔ ∃ e, (run_body X k (started w)).2 = Raise e).
Proof.
  rewrite run_unfold.
  destruct (run_body_log X k (started w)) as (l & Hl & Hinfo).
  destruct (run_body X k (started w)) as [w' [[]|e]]; simpl in *.
  - split; [done |]. split; [| by intros [? [=]]].
    intros [msg Hin]. exfalso. rewrite Hl, <- app_assoc, drop_app_length in Hin.
    apply elem_of_cons in Hin as [[=] | Hin].
    rewrite Forall_forall in Hinfo. by specialize (Hinfo _ Hin).
  - split; [done |]. split; [by eauto |]. intros _.
    exists (exn_message e). rewrite Hl, <- !app_assoc, drop_app_length.
    apply elem_of_app. right. apply elem_of_app. right. solve_elem_of.
Qed.

(** ** The merge of the metadata and the command line *)

Lemma merge_arguments_lookup (notebook_metadata : gmap string value)
    (args : namespace) (key : string) :
  merge_arguments notebook_metadata args !! key =
    match vars args !! key with
    | Some v => if is_None v then notebook_metadata !! key else Some v
    | None => notebook_metadata !! key
    end.
Proof.
  unfold merge_arguments.
  destruct (vars args !! key) as [v|] eqn:Hv.
  - destruct (is_None v) eqn:Hn.
    + apply lookup_union_r. apply map_lookup_filter_None. right.
      intros v' Hv'. simpl. rewrite Hv in Hv'. injection Hv' as <-. by rewrite Hn.
    + rewrite lookup_union_l'.
      * by apply map_lookup_filter_Some.
      * exists v. by apply map_lookup_filter_Some.
  - apply lookup_union_r. apply map_lookup_filter_None. by left.
Qed.

(** X19.  The flags [--upload_pipeline], [--run_pipeline] and [--debug]
    are [False], not [None], when they are not given, so in the merged
    arguments they always have the value of the command line: what the
    metadata of the notebook says for them is never used. *)
Theorem flags_from_command_line (notebook_metadata : gmap string value)
    (args : namespace) :
  merge_arguments notebook_metadata args !! "upload_pipeline"
  = Some (VBool (args_upload_pipeline args))
  ∧ merge_arguments notebook_metadata args !! "run_pipeline"
    = Some (VBool (args_run_pipeline args))
  ∧ merge_arguments notebook_metadata args !! "debug"
    = Some (VBool (args_debug args)).
Proof. rewrite !merge_arguments_lookup. repeat split. Qed.

Lemma merge_arguments_str (notebook_metadata : gmap string value)
    (args : namespace) (key : string) (o : option string) :
  vars args !! key = Some (str_value o) →
  merge_arguments notebook_metadata args !! key
  = match o with
    | Some s => Some (VStr s)
    | None => notebook_metadata !! key
    end.
Proof. intros Hv. rewrite merge_arguments_lookup, Hv. by destruct o. Qed.

(** X20.  An option given on the command line replaces the entry of the
    notebook metadata, an option that is not given leaves it; ['volumes']
    has no option, it comes from the notebook metadata only. *)
Theorem command_line_precedence (notebook_metadata : gmap string value)
    (args : namespace) :
  merge_arguments notebook_metadata args !! "pipeline_name"
  = match args_pipeline_name args with
    | Some s => Some (VStr s)
    | None => notebook_metadata !! "pipeline_name"
    end
  ∧ merge_arguments notebook_metadata args !! "experiment_name"
    = match args_experiment_name args with
      | Some s => Some (VStr s)
      | None => notebook_metadata !! "experiment_name"
      end
  ∧ merge_arguments notebook_metadata args !! "docker_image"
    = match args_docker_image args with
      | Some s => Some (VStr s)
      | None => notebook_metadata !! "docker_image"
      end
  ∧ merge_arguments notebook_metadata args !! "pipeline_description"
    = match args_pipeline_description args with
      | Some s => Some (VStr s)
      | None => notebook_metadata !! "pipeline_description"
      end
  ∧ merge_arguments notebook_metadata args !! "jupyter_args"
    = match args_jupyter_args args with
      | Some s => Some (VStr s)
      | None => notebook_metadata !! "jupyter_args"
      end
  ∧ merge_arguments notebook_metadata args !! "volumes"
    = notebook_metadata !! "volumes".
Proof.
  repeat split; try by apply merge_arguments_str.
  by rewrite merge_arguments_lookup.
Qed.

(** X21.  The check of the required arguments passes exactly when each of
    [experiment_name], [pipeline_name] and [docker_image] is given on the
    command line or is a key of the notebook metadata. *)
Theorem required_arguments_found (notebook_metadata : gmap string value)
    (args : namespace) :
  require REQUIRED_ARGUMENTS (merge_arguments notebook_metadata args) = Ok tt
  ↔ (is_Some (args_experiment_name args)
     ∨ is_Some (notebook_metadata !! "experiment_name"))
    ∧ (is_Some (args_pipeline_name args)
       ∨ is_Some (notebook_metadata !! "pipeline_name"))
    ∧ (is_Some (args_docker_image args)
       ∨ is_Some (notebook_metadata !! "docker_image")).
Proof.
  unfold REQUIRED_ARGUMENTS, require.
  rewrite (merge_arguments_str _ _ "experiment_name" (args_experiment_name args)),
    (merge_arguments_str _ _ "pipeline_name" (args_pipeline_name args)),
    (merge_arguments_str _ _ "docker_image" (args_docker_image args)) by done.
  destruct (args_experiment_name args) as [ex|],
    (notebook_metadata !! "experiment_name") as [ex'|],
    (args_pipeline_name args) as [pn|],
    (notebook_metadata !! "pipeline_name") as [pn'|],
    (args_docker_image args) as [im|],
    (notebook_metadata !! "docker_image") as [im'|];
    (split; [try done; intros _; repeat split; eauto |]);
    try done; intros (H1 & H2 & H3);
    repeat match goal with
           | H : _ ∨ _ |- _ => destruct H as [[? [=]] | [? [=]]]
           end.
Qed.

(** The check of [main] on the typed arguments is the loop over the keys of
    the merged dict. *)
Lemma check_required_require (m : gmap string value) (ma : metadata_arguments)
    (w : world) :
  typed_view m ma →
  check_required ma w = (w, require REQUIRED_ARGUMENTS m).
Proof.
  intros (_ & Hex & Hpn & Him & _).
  unfold check_required, REQUIRED_ARGUMENTS, require. rewrite Hex, Hpn, Him.
  by destruct (ma_experiment_name ma), (ma_pipeline_name ma), (ma_docker_image ma).
Qed.
